(** * massagerie-app: rooms and messages backend

    A shallow embedding of the Express/Mongoose backend:

    - [src/backend/models/Message.js]  the [Message] and [Room] schemas;
    - [src/backend/routes/room.js]     create / join / my-rooms / get / leave;
    - [src/backend/routes/messages.js] list / send / read / edit / delete.

    Modelling conventions.

    - The document store is explicit state: three collections keyed by
      [ObjectId], each a [gmap].  A handler is a function from the request and
      the store to a response and the new store.
    - A JavaScript string is the sequence of its UTF-16 code units; [length],
      the rules of Joi and the [minlength]/[maxlength] of Mongoose count code
      units, and [trim] removes the white space and line terminators of
      ECMAScript.
    - [String.prototype.toUpperCase] and the cast of a string to an
      [ObjectId] belong to the platform and are parameters ([Platform]); the
      upper case of an upper case is itself.
    - An [ObjectId] is named by its canonical text; [req.userId] and the
      parameters of a path are ids; the id fields of a body are strings, cast
      where the code casts them.  A new document receives an id that is fresh
      in its collection.
    - A request body is well-typed JSON with no other field than those of
      the schema: a field is absent ([None]) or carries a value of the type
      the schema names; a number is a rational.
    - Every member entry and every read receipt of the store names a user.
    - One request is served at one instant [now] (milliseconds).
    - [populate] replaces a reference by the document it names, and by [null]
      when there is none.  User profiles are outside the model: a populated
      user is known by its id, and the response carries the stored room or
      message, with the message replied to beside it.
    - [save] runs the validators of the schema on the whole document, new or
      loaded, and the unique index of the room codes on a new room.
    - A [try]/[catch] around a handler maps a thrown error to status 500.
    - The [updatedAt] of the [timestamps] option is read by no route and is
      left out. *)

From stdpp Require Import gmap strings list fin_maps sorting.
From Stdlib Require Import ZArith QArith Qcanon Lia.
From Stdlib Require Import Ascii.

Local Open Scope Z_scope.

(** ** JavaScript strings *)

(** The UTF-16 code units of a string. *)
Abbreviation jsstring := (list N).

(** The code units of a text of ASCII characters. *)
Definition utf16 (s : string) : jsstring :=
  N_of_ascii <$> String.list_ascii_of_string s.

Module JS.

(** The white space and the line terminators of ECMAScript, which [trim]
    removes: TAB, LF, VT, FF, CR, SPACE, NO-BREAK SPACE, OGHAM SPACE MARK,
    EN QUAD to HAIR SPACE, LINE and PARAGRAPH SEPARATOR, NARROW NO-BREAK
    SPACE, MEDIUM MATHEMATICAL SPACE, IDEOGRAPHIC SPACE and the BOM. *)
Definition isSpace (c : N) : bool :=
  (((9 <=? c) && (c <=? 13)) || (c =? 32) || (c =? 160) || (c =? 5760)
   || ((8192 <=? c) && (c <=? 8202)) || (c =? 8232) || (c =? 8233)
   || (c =? 8239) || (c =? 8287) || (c =? 12288) || (c =? 65279))%N.

Fixpoint trimStart (s : jsstring) : jsstring :=
  match s with
  | [] => []
  | c :: r => if isSpace c then trimStart r else s
  end.

(** [trimEnd]: a code unit is kept when it is not white space or when
    something remains after it. *)
Fixpoint trimEnd (s : jsstring) : jsstring :=
  match s with
  | [] => []
  | c :: r =>
      match trimEnd r with
      | [] => if isSpace c then [] else [c]
      | r' => c :: r'
      end
  end.

(** [String.prototype.trim] *)
Definition trim (s : jsstring) : jsstring := trimEnd (trimStart s).

(** [s.length] *)
Definition len (s : jsstring) : Z := Z.of_nat (length s).

(** [s.substring(a, b)] for [0 <= a <= b], on a text of ASCII characters *)
Definition substring (a b : nat) (s : string) : string :=
  String.substring a (b - a) s.

Definition upperChar (c : ascii) : ascii :=
  let n := N_of_ascii c in
  if ((97 <=? n) && (n <=? 122))%N then ascii_of_N (n - 32) else c.

(** [toUpperCase] on the text that [toString(36)] prints: the digits, the
    letters a to z and the point. *)
Fixpoint upperCase36 (s : string) : string :=
  match s with
  | EmptyString => EmptyString
  | String c r => String (upperChar c) (upperCase36 r)
  end.

(** [!s] for a field that is absent or a string *)
Definition falsy (s : option jsstring) : bool :=
  match s with
  | None => true
  | Some [] => true
  | Some _ => false
  end.

(** [x || d] for a field that is absent or a string *)
Definition orStr (x : option jsstring) (d : option jsstring) : option jsstring :=
  if falsy x then d else x.

(** [x || d] for the result of [parseInt]: [NaN] and [0] are falsy *)
Definition orNum (x : option Z) (d : Z) : Z :=
  match x with
  | Some n => if n =? 0 then d else n
  | None => d
  end.

(** [x || d] for a field that is absent or a number: [0] is falsy *)
Definition orNumber (x : option Qc) (d : Qc) : Qc :=
  match x with
  | Some n => if bool_decide (n = Qc_of_Z 0) then d else n
  | None => d
  end.

(** [x || false] for a field that is absent or a boolean *)
Definition orBool (x : option bool) : bool :=
  match x with Some b => b | None => false end.

(** [Math.ceil(a / b)] for integers [a] and [b <> 0] *)
Definition ceilDiv (a b : Z) : Z := - ((- a) / b).

(** there is a code unit that [trim] keeps *)
Fixpoint hasNonSpace (s : jsstring) : bool :=
  match s with
  | [] => false
  | c :: r => negb (isSpace c) || hasNonSpace r
  end.

End JS.

(** ** The schemas of [models/Message.js] *)

Abbreviation ObjectId := string.
Abbreviation Date := Z.

(** What the platform provides: [String.prototype.toUpperCase], of which
    the development uses that it leaves its own results alone, and the cast
    of a string to an [ObjectId], which fails on a string that names none. *)
Class Platform := {
  toUpperCase : jsstring → jsstring;
  toUpperCase_idem : ∀ s, toUpperCase (toUpperCase s) = toUpperCase s;
  castObjectId : jsstring → option ObjectId
}.

Inductive MessageType := text | image | file | system.

Inductive Role := admin | member.

Record ReadReceipt := mkRead {
  reader : ObjectId;   (* readBy[].user *)
  readAt : Date
}.

Record Message := mkMessage {
  content : jsstring;
  sender : ObjectId;
  room : ObjectId;
  type : MessageType;
  edited : bool;
  editedAt : option Date;
  readBy : list ReadReceipt;
  replyTo : option ObjectId;
  createdAt : Date           (* timestamps: true *)
}.

Record Member := mkMember {
  user : ObjectId;
  joinedAt : Date;
  role : Role
}.

Record Room := mkRoom {
  name : jsstring;
  code : jsstring;
  description : option jsstring;
  creator : ObjectId;
  members : list Member;
  maxMembers : Qc;
  isPrivate : bool;
  lastActivity : Date;
  roomCreatedAt : Date       (* timestamps: true *)
}.

(** The part of the external [User] model the routes touch: the list of room
    references. *)
Record User := mkUser {
  userRooms : list ObjectId
}.

#[global] Instance MessageType_eq_dec : EqDecision MessageType.
Proof. solve_decision. Defined.
#[global] Instance Role_eq_dec : EqDecision Role.
Proof. solve_decision. Defined.
#[global] Instance ReadReceipt_eq_dec : EqDecision ReadReceipt.
Proof. solve_decision. Defined.
#[global] Instance Member_eq_dec : EqDecision Member.
Proof. solve_decision. Defined.

(** ** The document store *)

Record Store := mkStore {
  rooms : gmap ObjectId Room;
  messages : gmap ObjectId Message;
  users : gmap ObjectId User
}.

(** ** Responses *)

Record Pagination := mkPagination {
  currentPage : Z;
  totalPages : Z;
  totalMessages : Z;
  hasMore : bool
}.

(** What [error.details[0]] of a failed Joi validation says: the key and the
    rule that failed (Joi's error codes [any.required], [string.empty], ...). *)
Inductive JoiRule :=
| any_required | any_only
| string_empty | string_min | string_max
| number_min | number_max.

Record JoiError := mkJoiError {
  path : string;
  rule : JoiRule
}.

(** The bodies of the responses.  [MsgSent] carries the new message and the
    message it replies to, as [populate('replyTo')] found it; [Page] carries
    beside each message of the page the message it replies to. *)
Inductive Body :=
| Msg (message : string)
| Invalid (message : string) (details : JoiError)
| MsgData (message : string) (id : ObjectId) (data : Message)
| MsgSent (message : string) (id : ObjectId) (data : Message)
       (reply : option Message)
| MsgRoom (message : string) (id : ObjectId) (r : Room)
| OneRoom (id : ObjectId) (r : Room)
| Rooms (rs : list (ObjectId * Room))
| Page (msgs : list (ObjectId * Message)) (replies : list (option Message))
       (pagination : Pagination).

Record Response := mkResponse {
  status : Z;
  body : Body
}.

Definition json (b : Body) : Response := mkResponse 200 b.
Definition internalError : Response :=
  mkResponse 500 (Msg "Erreur interne du serveur").

(** ** Joi rules shared by the route schemas *)

Module Joi.

(** [Joi.string()] with optional [.min(lo)] and [.max(hi)]; an empty string
    is refused before the length rules are looked at. *)
Definition str (key : string) (lo hi : option Z) (required : bool)
    (v : option jsstring) : option JoiError :=
  match v with
  | None => if required then Some (mkJoiError key any_required) else None
  | Some s =>
      if bool_decide (s = []) then Some (mkJoiError key string_empty)
      else if from_option (λ l, JS.len s <? l) false lo
      then Some (mkJoiError key string_min)
      else if from_option (λ h, h <? JS.len s) false hi
      then Some (mkJoiError key string_max)
      else None
  end.

(** [Joi.number().min(lo).max(hi).optional()]: any number, whole or not *)
Definition num (key : string) (lo hi : Z) (v : option Qc) : option JoiError :=
  match v with
  | None => None
  | Some n =>
      if bool_decide (n < Qc_of_Z lo)%Qc then Some (mkJoiError key number_min)
      else if bool_decide (Qc_of_Z hi < n)%Qc
      then Some (mkJoiError key number_max)
      else None
  end.

(** [Joi.string().valid(...).optional()] *)
Definition oneOf (key : string) (allowed : list jsstring) (v : option jsstring)
    : option JoiError :=
  match v with
  | None => None
  | Some s =>
      if bool_decide (s ∈ allowed) then None
      else Some (mkJoiError key any_only)
  end.

(** The keys of an object schema are checked in order and the first error
    is reported ([abortEarly]). *)
Fixpoint first (checks : list (option JoiError)) : option JoiError :=
  match checks with
  | [] => None
  | Some e :: _ => Some e
  | None :: rest => first rest
  end.

End Joi.

(** ** Queries shared by the routes *)

(** [room.members.some(member => member.user.toString() === req.userId)] *)
Definition isMember (r : Room) (userId : ObjectId) : bool :=
  existsb (λ m, bool_decide (user m = userId)) (members r).

(** [room.members.some(member => member.user._id.toString() === req.userId)]
    on a room whose [members.user] are populated: the members are visited in
    order up to the first that is the caller, and the callback throws on a
    member without a [User] record, whose [user] is [null] ([None]). *)
Fixpoint somePopulated (us : gmap ObjectId User) (userId : ObjectId)
    (ms : list Member) : option bool :=
  match ms with
  | [] => Some false
  | m :: rest =>
      match us !! user m with
      | None => None
      | Some _ =>
          if bool_decide (user m = userId) then Some true
          else somePopulated us userId rest
      end
  end.

(** [members.filter(member => member.user.toString() !== req.userId)] *)
Definition others (userId : ObjectId) (ms : list Member) : list Member :=
  List.filter (λ m, negb (bool_decide (user m = userId))) ms.

(** [message.readBy.some(read => read.user.toString() === req.userId)] *)
Definition alreadyRead (userId : ObjectId) (m : Message) : bool :=
  existsb (λ read, bool_decide (reader read = userId)) (readBy m).

(** [Room.findOne({ code })]: the first room of the collection with that code *)
Definition findOneByCode (c : jsstring) (s : Store) : option (ObjectId * Room) :=
  List.find (λ ir, bool_decide (code ir.2 = c)) (map_to_list (rooms s)).

(** [roomSchema.pre('save')]: every save of a room stamps [lastActivity]. *)
Definition preSave (now : Date) (r : Room) : Room :=
  mkRoom (name r) (code r) (description r) (creator r) (members r)
         (maxMembers r) (isPrivate r) now (roomCreatedAt r).

(** [room.lastActivity = new Date()] *)
Definition touch (now : Date) (r : Room) : Room :=
  mkRoom (name r) (code r) (description r) (creator r) (members r)
         (maxMembers r) (isPrivate r) now (roomCreatedAt r).

(** A room with its member list replaced, as [room.members = ...] and
    [room.members.push(...)] leave it before [save]. *)
Definition setMembers (r : Room) (ms : list Member) : Room :=
  mkRoom (name r) (code r) (description r) (creator r) ms
         (maxMembers r) (isPrivate r) (lastActivity r) (roomCreatedAt r).

(** The validators of [roomSchema], run by [save]. *)
Definition roomValid (r : Room) : bool :=
  negb (bool_decide (name r = [])) && (JS.len (name r) <=? 50)
  && (4 <=? JS.len (code r)) && (JS.len (code r) <=? 8)
  && from_option (λ d, JS.len d <=? 200) true (description r)
  && bool_decide (Qc_of_Z 2 ≤ maxMembers r)%Qc
  && bool_decide (maxMembers r ≤ Qc_of_Z 100)%Qc.

(** The validators of [messageSchema], run by [save] on the content. *)
Definition contentValid (c : jsstring) : bool :=
  negb (bool_decide (c = [])) && (JS.len c <=? 1000).

(** A message after [message.readBy.push({ user, readAt })]. *)
Definition addReceipt (now : Date) (userId : ObjectId) (m : Message) : Message :=
  mkMessage (content m) (sender m) (room m) (type m) (edited m) (editedAt m)
            (readBy m ++ [mkRead userId now]) (replyTo m) (createdAt m).

(** A message after the assignments of [PUT /:messageId]. *)
Definition editContent (now : Date) (c : jsstring) (m : Message) : Message :=
  mkMessage c (sender m) (room m) (type m) true (Some now) (readBy m)
            (replyTo m) (createdAt m).

(** [User.findByIdAndUpdate(id, { $push: { rooms: roomId } })] *)
Definition pushUserRoom (userId roomId : ObjectId) (us : gmap ObjectId User)
    : gmap ObjectId User :=
  alter (λ u, mkUser (userRooms u ++ [roomId])) userId us.

(** [User.findByIdAndUpdate(id, { $pull: { rooms: roomId } })] *)
Definition pullUserRoom (userId roomId : ObjectId) (us : gmap ObjectId User)
    : gmap ObjectId User :=
  alter (λ u, mkUser (List.filter (λ i, negb (bool_decide (i = roomId)))
                                  (userRooms u))) userId us.

(** [populate('replyTo')]: the message a message replies to, when it names
    one that is there. *)
Definition populateReply (ms : gmap ObjectId Message) (m : Message)
    : option Message :=
  replyTo m ≫= λ id, ms !! id.

(** ** [routes/room.js] *)

Module RoomRoutes.

Record CreateBody := mkCreateBody {
  body_name : option jsstring;
  body_code : option jsstring;
  body_description : option jsstring;
  body_maxMembers : option Qc;
  body_isPrivate : option bool
}.

(** [isPrivate: Joi.boolean().optional()] accepts every boolean. *)
Definition createRoomSchema (b : CreateBody) : option JoiError :=
  Joi.first
    [ Joi.str "name" (Some 1) (Some 50) true (body_name b);
      Joi.str "code" (Some 4) (Some 8) true (body_code b);
      Joi.str "description" None (Some 200) false (body_description b);
      Joi.num "maxMembers" 2 100 (body_maxMembers b) ].

Definition joinRoomSchema (body_code : option jsstring) : option JoiError :=
  Joi.str "code" (Some 4) (Some 8) true body_code.

(** [generateRoomCode], given what [Math.random().toString(36)] printed. *)
Definition generateRoomCode (random36 : string) : string :=
  JS.upperCase36 (JS.substring 2 8 random36).

(** The loop that draws codes until one is free.  [draws] are the successive
    outputs of [Math.random().toString(36)]; [None] when every draw
    supplied collides, where the loop would go on drawing. *)
Fixpoint uniqueCode (draws : list string) (s : Store) : option jsstring :=
  match draws with
  | [] => None
  | r :: rest =>
      let code := utf16 (generateRoomCode r) in
      match findOneByCode code s with
      | Some _ => uniqueCode rest s
      | None => Some code
      end
  end.

Section Handlers.
Context `{platform : !Platform}.

(** [new Room({...})] with the setters of the schema ([trim] on the name,
    [uppercase] on the code) and the defaults of the member sub-document. *)
Definition newRoom (now : Date) (userId : ObjectId) (name code : jsstring)
    (b : CreateBody) : Room :=
  mkRoom (JS.trim name) (toUpperCase code)
         (body_description b) userId
         [mkMember userId now admin]
         (JS.orNumber (body_maxMembers b) (Qc_of_Z 50))
         (JS.orBool (body_isPrivate b))
         now now.

(** [POST /create].  The room is saved when it passes the validators and no
    room carries its code, which has a unique index. *)
Definition postCreate (draws : list string) (now : Date) (userId : ObjectId)
    (b : CreateBody) (s : Store) : option (Response * Store) :=
  match createRoomSchema b with
  | Some e => Some (mkResponse 400 (Invalid "Données invalides" e), s)
  | None =>
      match (if JS.falsy (body_code b) then uniqueCode draws s
             else body_code b) with
      | None => None
      | Some c =>
          match findOneByCode (toUpperCase c) s with
          | Some _ =>
              Some (mkResponse 409 (Msg "Ce code de salle existe déjà"), s)
          | None =>
              match body_name b with
              | None => Some (internalError, s)
              | Some n =>
                  let room := newRoom now userId n (toUpperCase c) b in
                  if roomValid room
                     && bool_decide (findOneByCode (code room) s = None) then
                    let id := fresh (dom (rooms s)) in
                    Some (mkResponse 201 (MsgRoom "Salle créée avec succès" id room),
                          mkStore (<[id := room]> (rooms s)) (messages s)
                                  (pushUserRoom userId id (users s)))
                  else Some (internalError, s)
              end
          end
      end
  end.

(** [POST /join] *)
Definition postJoin (now : Date) (userId : ObjectId) (body_code : option jsstring)
    (s : Store) : Response * Store :=
  match joinRoomSchema body_code, body_code with
  | Some e, _ => (mkResponse 400 (Invalid "Données invalides" e), s)
  | None, None => (internalError, s)
  | None, Some c =>
      match findOneByCode (toUpperCase c) s with
      | None => (mkResponse 404 (Msg "Salle non trouvée"), s)
      | Some (id, room) =>
          match somePopulated (users s) userId (members room) with
          | None => (internalError, s)
          | Some true =>
              (mkResponse 409 (Msg "Vous êtes déjà membre de cette salle"), s)
          | Some false =>
              if bool_decide
                   (maxMembers room ≤ Qc_of_Z (Z.of_nat (length (members room))))%Qc
              then (mkResponse 409 (Msg "La salle est pleine"), s)
              else
                let room' :=
                  preSave now
                    (setMembers room
                       (members room ++ [mkMember userId now member])) in
                if roomValid room' then
                  (json (MsgRoom "Vous avez rejoint la salle avec succès" id room'),
                   mkStore (<[id := room']> (rooms s)) (messages s)
                           (pushUserRoom userId id (users s)))
                else (internalError, s)
          end
      end
  end.

End Handlers.

(** [GET /my-rooms] *)
Definition getMyRooms (userId : ObjectId) (s : Store) : Response :=
  match users s !! userId with
  | None => mkResponse 404 (Msg "Utilisateur non trouvé")
  | Some u =>
      json (Rooms (omap (λ id, (λ r, (id, r)) <$> rooms s !! id) (userRooms u)))
  end.

(** [GET /:roomId] *)
Definition getRoom (userId roomId : ObjectId) (s : Store) : Response :=
  match rooms s !! roomId with
  | None => mkResponse 404 (Msg "Salle non trouvée")
  | Some room =>
      match somePopulated (users s) userId (members room) with
      | None => internalError
      | Some false => mkResponse 403 (Msg "Accès refusé")
      | Some true => json (OneRoom roomId room)
      end
  end.

(** [POST /:roomId/leave] *)
Definition postLeave (now : Date) (userId roomId : ObjectId) (s : Store)
    : Response * Store :=
  match rooms s !! roomId with
  | None => (mkResponse 404 (Msg "Salle non trouvée"), s)
  | Some room =>
      let room' :=
        preSave now (setMembers room (others userId (members room))) in
      if roomValid room' then
        (json (Msg "Vous avez quitté la salle avec succès"),
         mkStore (<[roomId := room']> (rooms s)) (messages s)
                 (pullUserRoom userId roomId (users s)))
      else (internalError, s)
  end.

End RoomRoutes.

(** ** [routes/messages.js] *)

Module MessageRoutes.

Record SendBody := mkSendBody {
  body_content : option jsstring;
  body_roomId : option jsstring;
  body_type : option jsstring;
  body_replyTo : option jsstring
}.

(** [req.query] after [parseInt]: [None] is [NaN] (the parameter is absent
    or does not start with a number). *)
Record Query := mkQuery {
  query_page : option Z;
  query_limit : option Z
}.

Definition sendMessageSchema (b : SendBody) : option JoiError :=
  Joi.first
    [ Joi.str "content" (Some 1) (Some 1000) true (body_content b);
      Joi.str "roomId" None None true (body_roomId b);
      Joi.oneOf "type" [utf16 "text"; utf16 "image"; utf16 "file"] (body_type b);
      Joi.str "replyTo" None None false (body_replyTo b) ].

(** The cast of a string to the [enum] of [messageSchema.type]. *)
Definition castType (t : jsstring) : option MessageType :=
  if bool_decide (t = utf16 "text") then Some text
  else if bool_decide (t = utf16 "image") then Some image
  else if bool_decide (t = utf16 "file") then Some file
  else if bool_decide (t = utf16 "system") then Some system
  else None.

(** [sort({ createdAt: -1 })]: a message comes before the ones created no
    later than it. *)
Definition newerFirst (a b : ObjectId * Message) : Prop :=
  createdAt b.2 ≤ createdAt a.2.

#[global] Instance newerFirst_dec : RelDecision newerFirst.
Proof. intros a b. unfold newerFirst. apply _. Defined.

Definition chronological (a b : ObjectId * Message) : Prop :=
  createdAt a.2 ≤ createdAt b.2.

(** [Message.find({ room: roomId })] *)
Definition roomMessages (roomId : ObjectId) (s : Store)
    : list (ObjectId * Message) :=
  filter (λ im, room im.2 = roomId) (map_to_list (messages s)).

(** [.sort({ createdAt: -1 }).limit(limit).skip(skip)]: the server skips,
    then limits; it refuses a negative skip and the driver sends a negative
    limit as its absolute value. *)
Definition findPage (roomId : ObjectId) (limit skip : Z) (s : Store)
    : option (list (ObjectId * Message)) :=
  if skip <? 0 then None
  else Some (take (Z.to_nat (Z.abs limit))
               (drop (Z.to_nat skip)
                  (merge_sort newerFirst (roomMessages roomId s)))).

(** [Message.countDocuments({ room: roomId })] *)
Definition countDocuments (roomId : ObjectId) (s : Store) : Z :=
  Z.of_nat (length (roomMessages roomId s)).

(** [GET /room/:roomId] *)
Definition getRoomMessages (userId roomId : ObjectId) (q : Query) (s : Store)
    : Response :=
  let page := JS.orNum (query_page q) 1 in
  let limit := JS.orNum (query_limit q) 50 in
  let skip := (page - 1) * limit in
  match rooms s !! roomId with
  | None => mkResponse 404 (Msg "Salle non trouvée")
  | Some r =>
      if negb (isMember r userId) then mkResponse 403 (Msg "Accès refusé")
      else
        match findPage roomId limit skip s with
        | None => internalError
        | Some msgs =>
            let totalMessages := countDocuments roomId s in
            json (Page (reverse msgs)
                    ((λ im, populateReply (messages s) im.2) <$> reverse msgs)
                    (mkPagination page (JS.ceilDiv totalMessages limit)
                       totalMessages
                       (skip + Z.of_nat (length msgs) <? totalMessages)))
        end
  end.

Section Handlers.
Context `{platform : !Platform}.

(** [replyTo || null], cast as the schema asks on [save]: [None] when the
    cast fails. *)
Definition castReplyTo (replyTo : option jsstring) : option (option ObjectId) :=
  match JS.orStr replyTo None with
  | None => Some None
  | Some raw => Some <$> castObjectId raw
  end.

(** [POST /send].  The message is saved first; the room is saved after it,
    and when that fails the message stays. *)
Definition postSend (now : Date) (userId : ObjectId) (b : SendBody) (s : Store)
    : Response * Store :=
  match sendMessageSchema b with
  | Some e => (mkResponse 400 (Invalid "Données invalides" e), s)
  | None =>
      match body_roomId b ≫= castObjectId with
      | None => (internalError, s)
      | Some roomId =>
          match rooms s !! roomId with
          | None => (mkResponse 404 (Msg "Salle non trouvée"), s)
          | Some r =>
              if negb (isMember r userId) then
                (mkResponse 403 (Msg "Accès refusé"), s)
              else
                match body_content b,
                      JS.orStr (body_type b) (Some (utf16 "text")) ≫= castType,
                      castReplyTo (body_replyTo b) with
                | Some c, Some t, Some reply =>
                    let message :=
                      mkMessage (JS.trim c) userId roomId t false None []
                                reply now in
                    if contentValid (content message) then
                      let id := fresh (dom (messages s)) in
                      let stored := <[id := message]> (messages s) in
                      let r' := preSave now (touch now r) in
                      if roomValid r' then
                        (mkResponse 201
                           (MsgSent "Message envoyé avec succès" id message
                                 (populateReply stored message)),
                         mkStore (<[roomId := r']> (rooms s)) stored (users s))
                      else
                        (internalError, mkStore (rooms s) stored (users s))
                    else (internalError, s)
                | _, _, _ => (internalError, s)
                end
          end
      end
  end.

End Handlers.

(** [POST /:messageId/read] *)
Definition postRead (now : Date) (userId messageId : ObjectId) (s : Store)
    : Response * Store :=
  match messages s !! messageId with
  | None => (mkResponse 404 (Msg "Message non trouvé"), s)
  | Some m =>
      if negb (alreadyRead userId m) then
        let m' := addReceipt now userId m in
        if contentValid (content m') then
          (json (Msg "Message marqué comme lu"),
           mkStore (rooms s) (<[messageId := m']> (messages s)) (users s))
        else (internalError, s)
      else (json (Msg "Message marqué comme lu"), s)
  end.

(** [PUT /:messageId] *)
Definition putMessage (now : Date) (userId messageId : ObjectId)
    (body_content : option jsstring) (s : Store) : Response * Store :=
  match body_content with
  | None => (mkResponse 400 (Msg "Le contenu du message est requis"), s)
  | Some c =>
      if JS.falsy (Some c) || (JS.len (JS.trim c) =? 0) then
        (mkResponse 400 (Msg "Le contenu du message est requis"), s)
      else
        match messages s !! messageId with
        | None => (mkResponse 404 (Msg "Message non trouvé"), s)
        | Some m =>
            if negb (bool_decide (sender m = userId)) then
              (mkResponse 403
                 (Msg "Vous ne pouvez modifier que vos propres messages"), s)
            else
              let m' := editContent now (JS.trim (JS.trim c)) m in
              if contentValid (content m') then
                (json (MsgData "Message modifié avec succès" messageId m'),
                 mkStore (rooms s) (<[messageId := m']> (messages s)) (users s))
              else (internalError, s)
        end
  end.

(** [DELETE /:messageId] *)
Definition deleteMessage (userId messageId : ObjectId) (s : Store)
    : Response * Store :=
  match messages s !! messageId with
  | None => (mkResponse 404 (Msg "Message non trouvé"), s)
  | Some m =>
      if negb (bool_decide (sender m = userId)) then
        (mkResponse 403
           (Msg "Vous ne pouvez supprimer que vos propres messages"), s)
      else
        (json (Msg "Message supprimé avec succès"),
         mkStore (rooms s) (delete messageId (messages s)) (users s))
  end.

End MessageRoutes.

(** ** The service as a whole *)

Inductive Request :=
| CreateRoom (draws : list string) (b : RoomRoutes.CreateBody)
| JoinRoom (body_code : option jsstring)
| MyRooms
| GetRoom (roomId : ObjectId)
| LeaveRoom (roomId : ObjectId)
| ListMessages (roomId : ObjectId) (q : MessageRoutes.Query)
| SendMessage (b : MessageRoutes.SendBody)
| MarkRead (messageId : ObjectId)
| EditMessage (messageId : ObjectId) (body_content : option jsstring)
| DeleteMessage (messageId : ObjectId).

(** One request of the caller [userId] served at [now]. *)
Definition handle `{!Platform} (now : Date) (userId : ObjectId) (req : Request)
    (s : Store) : option (Response * Store) :=
  match req with
  | CreateRoom draws b => RoomRoutes.postCreate draws now userId b s
  | JoinRoom c => Some (RoomRoutes.postJoin now userId c s)
  | MyRooms => Some (RoomRoutes.getMyRooms userId s, s)
  | GetRoom roomId => Some (RoomRoutes.getRoom userId roomId s, s)
  | LeaveRoom roomId => Some (RoomRoutes.postLeave now userId roomId s)
  | ListMessages roomId q =>
      Some (MessageRoutes.getRoomMessages userId roomId q s, s)
  | SendMessage b => Some (MessageRoutes.postSend now userId b s)
  | MarkRead messageId => Some (MessageRoutes.postRead now userId messageId s)
  | EditMessage messageId c =>
      Some (MessageRoutes.putMessage now userId messageId c s)
  | DeleteMessage messageId =>
      Some (MessageRoutes.deleteMessage userId messageId s)
  end.

(** ** Invariants of the data model *)

(** No two rooms share a code. *)
Definition uniqueCodes (s : Store) : Prop :=
  ∀ i j r1 r2,
    rooms s !! i = Some r1 → rooms s !! j = Some r2 →
    code r1 = code r2 → i = j.

(** Codes are stored in upper case. *)
Definition upperCodes `{!Platform} (s : Store) : Prop :=
  ∀ i r, rooms s !! i = Some r → toUpperCase (code r) = code r.

Definition codesOk `{!Platform} (s : Store) : Prop :=
  uniqueCodes s ∧ upperCodes s.

(** How many read receipts of a message belong to a user. *)
Definition receiptsOf (userId : ObjectId) (m : Message) : nat :=
  length (filter (λ rd, reader rd = userId) (readBy m)).

(** At most one read receipt per user. *)
Definition oneReceiptPerUser (s : Store) : Prop :=
  ∀ i m userId, messages s !! i = Some m → (receiptsOf userId m ≤ 1)%nat.

(** The same caller marking the same message once per instant of [times]:
    the responses in order and the final store. *)
Fixpoint markReadMany (times : list Date) (userId messageId : ObjectId)
    (s : Store) : list Response * Store :=
  match times with
  | [] => ([], s)
  | t :: rest =>
      let (resp, s1) := MessageRoutes.postRead t userId messageId s in
      let (resps, s2) := markReadMany rest userId messageId s1 in
      (resp :: resps, s2)
  end.

(** Every member of the room has a [User] record. *)
Definition membersKnown (s : Store) (r : Room) : Prop :=
  ∀ m, m ∈ members r → is_Some (users s !! user m).

(** The text of a message type, as the body of a request spells it. *)
Definition typeName (t : MessageType) : jsstring :=
  match t with
  | text => utf16 "text"
  | image => utf16 "image"
  | file => utf16 "file"
  | system => utf16 "system"
  end.

(** A room holds less than one member more than [maxMembers], which need
    not be whole: at most [maxMembers] members when it is. *)
Definition withinCapacity (s : Store) : Prop :=
  ∀ i r, rooms s !! i = Some r →
         (Qc_of_Z (Z.of_nat (length (members r))) < maxMembers r + 1)%Qc.

(** No user is twice in the member list of a room. *)
Definition distinctMembers (s : Store) : Prop :=
  ∀ i r, rooms s !! i = Some r → NoDup (user <$> members r).

(** Every room passes the validators of [roomSchema]. *)
Definition roomsValid (s : Store) : Prop :=
  ∀ i r, rooms s !! i = Some r → roomValid r = true.

(** Every room reference of a user record is a room of the store that has
    the user among its members. *)
Definition userRoomsSound (s : Store) : Prop :=
  ∀ uid u rid, users s !! uid = Some u → rid ∈ userRooms u →
               ∃ r, rooms s !! rid = Some r ∧ isMember r uid = true.

(** Every message holds trimmed content that passes the validators of
    [messageSchema]. *)
Definition contentsValid (s : Store) : Prop :=
  ∀ i m, messages s !! i = Some m →
         contentValid (content m) = true ∧ JS.trim (content m) = content m.

(** ** What a request can do to the store *)

(** The writes of the ten routes, read off their handlers: a request of
    [userId] served at [now] with status [st] either leaves the store as it
    is or does one of eight things to it.  [SentOnly] is the send whose
    message was saved when the save of the room failed. *)
Inductive Effect `{!Platform} (now : Date) (userId : ObjectId) (s : Store)
    : Z → Store → Prop :=
| NoChange st : Effect now userId s st s
| Created r :
    roomValid r = true → creator r = userId →
    members r = [mkMember userId now admin] →
    toUpperCase (code r) = code r →
    findOneByCode (code r) s = None →
    Effect now userId s 201
      (mkStore (<[fresh (dom (rooms s)) := r]> (rooms s)) (messages s)
               (pushUserRoom userId (fresh (dom (rooms s))) (users s)))
| Joined id r :
    rooms s !! id = Some r → isMember r userId = false →
    (Qc_of_Z (Z.of_nat (length (members r))) < maxMembers r)%Qc →
    roomValid r = true →
    Effect now userId s 200
      (mkStore (<[id := preSave now
                          (setMembers r (members r ++ [mkMember userId now member]))]>
                  (rooms s))
               (messages s) (pushUserRoom userId id (users s)))
| Left id r :
    rooms s !! id = Some r → roomValid r = true →
    Effect now userId s 200
      (mkStore (<[id := preSave now (setMembers r (others userId (members r)))]>
                  (rooms s))
               (messages s) (pullUserRoom userId id (users s)))
| Sent roomId r m :
    rooms s !! roomId = Some r → isMember r userId = true →
    sender m = userId → room m = roomId → type m ≠ system →
    edited m = false → readBy m = [] → createdAt m = now →
    contentValid (content m) = true → JS.trim (content m) = content m →
    roomValid r = true →
    Effect now userId s 201
      (mkStore (<[roomId := preSave now (touch now r)]> (rooms s))
               (<[fresh (dom (messages s)) := m]> (messages s)) (users s))
| SentOnly roomId r m :
    rooms s !! roomId = Some r → isMember r userId = true →
    sender m = userId → room m = roomId → type m ≠ system →
    edited m = false → readBy m = [] → createdAt m = now →
    contentValid (content m) = true → JS.trim (content m) = content m →
    roomValid r = false →
    Effect now userId s 500
      (mkStore (rooms s) (<[fresh (dom (messages s)) := m]> (messages s))
               (users s))
| Read id m :
    messages s !! id = Some m → alreadyRead userId m = false →
    contentValid (content m) = true →
    Effect now userId s 200
      (mkStore (rooms s) (<[id := addReceipt now userId m]> (messages s))
               (users s))
| Edited id m c :
    messages s !! id = Some m → sender m = userId →
    contentValid c = true → JS.trim c = c →
    Effect now userId s 200
      (mkStore (rooms s) (<[id := editContent now c m]> (messages s)) (users s))
| Deleted id m :
    messages s !! id = Some m → sender m = userId →
    Effect now userId s 200
      (mkStore (rooms s) (delete id (messages s)) (users s)).

(** ** A platform for the examples *)

(** [toUpperCase] on Latin-1 text and the cast of the 24 hexadecimal digits
    of an [ObjectId]. *)
Module Latin1.

(** The upper case of a code unit below 256: the letters a to z and the
    accented letters move down by 32, the micro sign becomes the Greek
    capital mu, the sharp s becomes SS and the y with diaeresis its capital
    at 376; the division sign and everything else stay. *)
Definition upperUnit (c : N) : jsstring :=
  (if (97 <=? c) && (c <=? 122) then [c - 32]
   else if c =? 181 then [924]
   else if c =? 223 then [83; 83]
   else if (224 <=? c) && (c <=? 254) && negb (c =? 247) then [c - 32]
   else if c =? 255 then [376]
   else [c])%N.

Definition toUpperCase (s : jsstring) : jsstring := s ≫= upperUnit.

(** A hexadecimal digit, in lower case. *)
Definition hexDigit (c : N) : option ascii :=
  (if (48 <=? c) && (c <=? 57) then Some (ascii_of_N c)
   else if (97 <=? c) && (c <=? 102) then Some (ascii_of_N c)
   else if (65 <=? c) && (c <=? 70) then Some (ascii_of_N (c + 32))
   else None)%N.

Definition castObjectId (s : jsstring) : option ObjectId :=
  if bool_decide (length s = 24%nat) then
    String.string_of_list_ascii <$> mapM hexDigit s
  else None.

End Latin1.

Ltac bool_to_prop :=
  repeat match goal with
         | H : _ && _ = true |- _ => apply andb_true_iff in H as [? ?]
         | H : negb _ = true |- _ => apply negb_true_iff in H
         | H : _ && _ = false |- _ => apply andb_false_iff in H
         | H : negb _ = false |- _ => apply negb_false_iff in H
         | H : (_ <=? _)%N = true |- _ => apply N.leb_le in H
         | H : (_ <=? _)%N = false |- _ => apply N.leb_gt in H
         | H : (_ =? _)%N = true |- _ => apply N.eqb_eq in H
         | H : (_ =? _)%N = false |- _ => apply N.eqb_neq in H
         | H : _ ∨ _ |- _ => destruct H
         end.

#[global, refine] Instance latin1 : Platform :=
  {| toUpperCase := Latin1.toUpperCase;
     castObjectId := Latin1.castObjectId |}.
Proof.
  assert (Hfixed : ∀ c, (c < 97 ∨ 122 < c)%N → c ≠ 181%N → c ≠ 223%N →
                        (c < 224 ∨ c = 247 ∨ 254 < c)%N → c ≠ 255%N →
                        Latin1.upperUnit c = [c]).
  { intros c ? ? ? ? ?. unfold Latin1.upperUnit.
    repeat (case_match; bool_to_prop; try (exfalso; lia)); done. }
  assert (Hunit : ∀ c, Latin1.upperUnit c ≫= Latin1.upperUnit
                       = Latin1.upperUnit c).
  { intros c. unfold Latin1.upperUnit at 2 3.
    repeat (case_match; bool_to_prop); subst; simpl; rewrite ?app_nil_r;
      try reflexivity; try (apply Hfixed; intuition lia). }
  intros s. unfold Latin1.toUpperCase.
  induction s as [|c s IH]; [done|].
  by rewrite !bind_cons, bind_app, IH, Hunit.
Defined.

(** ** Stores and requests of the examples *)

(** One full room with a message in it; three users. *)
Module Sample.

Definition alice : ObjectId := "65a000000000000000000001".
Definition bob : ObjectId := "65a000000000000000000002".
Definition carol : ObjectId := "65a000000000000000000003".
Definition roomId : ObjectId := "65b000000000000000000001".
Definition otherRoomId : ObjectId := "65b000000000000000000002".
Definition messageId : ObjectId := "65c000000000000000000001".

Definition team : Room :=
  mkRoom (utf16 "Team") (utf16 "TEAM") None alice
         [mkMember alice 1000 admin; mkMember bob 2000 member]
         (Qc_of_Z 2) false 2000 1000.

Definition hi : Message :=
  mkMessage (utf16 "hi") alice roomId text false None [] None 3000.

(** 1001 code units *)
Definition tooLong : jsstring := replicate 1001 97%N.

Definition store : Store :=
  mkStore {[ roomId := team ]} {[ messageId := hi ]}
          (<[alice := mkUser [roomId]]> (<[bob := mkUser [roomId]]>
             {[ carol := mkUser [] ]})).

Definition noteId (i : string) : ObjectId := "65c0000000000000000000" +:+ i.

Definition note (i : string) (t : Date) (reply : option ObjectId)
    : ObjectId * Message :=
  (noteId i,
   mkMessage (utf16 ("note " +:+ i)) alice roomId text false None [] reply t).

(** A message of another room, newer than every note. *)
Definition aside : ObjectId * Message :=
  (noteId "21",
   mkMessage (utf16 "aside") bob otherRoomId text false None [] None 60).

(** The room with five messages, stored in no particular order beside a
    message of another room; the fourth note replies to the first. *)
Definition busy : Store :=
  mkStore {[ roomId := team ]}
          (list_to_map [note "13" 30 None; aside; note "11" 10 None;
                        note "15" 50 None; note "12" 20 None;
                        note "14" 40 (Some (noteId "11"))])
          (users store).

End Sample.

Module Demo.

Definition setMembersCapacity (r : Room) (n : Qc) : Room :=
  mkRoom (name r) (code r) (description r) (creator r) (members r) n
         (isPrivate r) (lastActivity r) (roomCreatedAt r).

Definition devs : RoomRoutes.CreateBody :=
  RoomRoutes.mkCreateBody (Some (utf16 " Dev ")) (Some (utf16 "devs"))
                          None None None.

Definition blank : RoomRoutes.CreateBody :=
  RoomRoutes.mkCreateBody (Some (utf16 "   ")) (Some (utf16 "devs"))
                          None None None.

Definition hello : MessageRoutes.SendBody :=
  MessageRoutes.mkSendBody (Some (utf16 "hello"))
                           (Some (utf16 Sample.roomId)) None None.

Definition spaces : MessageRoutes.SendBody :=
  MessageRoutes.mkSendBody (Some (utf16 "  "))
                           (Some (utf16 Sample.roomId)) None None.

(** A picture sent in answer to the message of the sample store. *)
Definition picture : MessageRoutes.SendBody :=
  MessageRoutes.mkSendBody (Some (utf16 "sunset.png"))
                           (Some (utf16 Sample.roomId))
                           (Some (utf16 "image"))
                           (Some (utf16 Sample.messageId)).

(** The sample room with space for a third member. *)
Definition roomy : Store :=
  mkStore {[ Sample.roomId := setMembersCapacity Sample.team (Qc_of_Z 3) ]}
          (messages Sample.store) (users Sample.store).

(** The sample room when [bob] has no [User] record any more. *)
Definition orphaned : Store :=
  mkStore (rooms Sample.store) (messages Sample.store)
          (delete Sample.bob (users Sample.store)).

(** The sample room with a capacity of two and a half. *)
Definition fraction : Store :=
  mkStore {[ Sample.roomId := setMembersCapacity Sample.team (Q2Qc (5 # 2)) ]}
          (messages Sample.store) (users Sample.store).

(** A room whose code has accented capitals. *)
Definition etes : Store :=
  mkStore {[ Sample.roomId :=
               mkRoom (utf16 "Summers") [201; 84; 201; 83]%N None Sample.alice
                      [mkMember Sample.alice 1000 admin]
                      (Qc_of_Z 50) false 1000 1000 ]}
          ∅ (users Sample.store).

(** The sample room with a capacity below the minimum of the schema. *)
Definition cramped : Store :=
  mkStore {[ Sample.roomId := setMembersCapacity Sample.team (Qc_of_Z 1) ]}
          (messages Sample.store) (users Sample.store).

End Demo.

(** * Properties *)

(** ** Strings *)

Section Strings.

Lemma upperChar_idem c : JS.upperChar (JS.upperChar c) = JS.upperChar c.
Proof. by destruct c as [[] [] [] [] [] [] [] []]. Qed.

Lemma upperCase36_idem s :
  JS.upperCase36 (JS.upperCase36 s) = JS.upperCase36 s.
Proof.
  induction s as [|c s IH]; simpl; [done|].
  by rewrite upperChar_idem, IH.
Qed.

Lemma upperCase36_length s :
  String.length (JS.upperCase36 s) = String.length s.
Proof. induction s; simpl; congruence. Qed.

Lemma substring_length_le n m s :
  (String.length (String.substring n m s) ≤ m)%nat.
Proof.
  revert n m. induction s as [|c s IH]; intros [|n] [|m]; simpl; try lia.
  - specialize (IH 0%nat m). lia.
  - apply IH.
  - apply IH.
Qed.

Lemma utf16_length s : length (utf16 s) = String.length s.
Proof.
  unfold utf16. rewrite length_fmap.
  induction s; simpl; congruence.
Qed.

Lemma utf16_inj s t : utf16 s = utf16 t → s = t.
Proof.
  unfold utf16. intros H.
  assert (Hinj : Inj (=) (=) N_of_ascii).
  { intros a b Hab. by rewrite <- (ascii_N_embedding a), Hab, ascii_N_embedding. }
  apply (inj (fmap N_of_ascii)) in H.
  by rewrite <- (String.string_of_list_ascii_of_string s), H,
             String.string_of_list_ascii_of_string.
Qed.

Lemma trimStart_hasNonSpace s :
  JS.hasNonSpace (JS.trimStart s) = JS.hasNonSpace s.
Proof.
  induction s as [|c s IH]; simpl; [done|].
  destruct (JS.isSpace c) eqn:Hc; simpl; [done|]. by rewrite Hc.
Qed.

Lemma trimEnd_empty s : JS.trimEnd s = [] ↔ JS.hasNonSpace s = false.
Proof.
  induction s as [|c s IH]; simpl; [done|].
  destruct (JS.trimEnd s) eqn:Ht, (JS.isSpace c) eqn:Hc; simpl;
    [exact IH | done | | done].
  destruct IH as [_ IH]. split; [done|]. intros H. by specialize (IH H).
Qed.

(** [trim] leaves something exactly when there is a code unit that is not
    white space. *)
Lemma trim_nonempty s : JS.trim s ≠ [] ↔ JS.hasNonSpace s = true.
Proof.
  unfold JS.trim. rewrite trimEnd_empty, trimStart_hasNonSpace.
  by destruct (JS.hasNonSpace s).
Qed.

Lemma len_zero s : (JS.len s =? 0) = bool_decide (s = []).
Proof. by destruct s. Qed.

Lemma trimEnd_idem s : JS.trimEnd (JS.trimEnd s) = JS.trimEnd s.
Proof.
  induction s as [|c s IH]; simpl; [done|].
  destruct (JS.trimEnd s) as [|c' r] eqn:Ht.
  - destruct (JS.isSpace c) eqn:Hc; simpl; [done|]. by rewrite Hc.
  - simpl in *. by rewrite IH.
Qed.

Lemma trimEnd_keeps_head c s :
  JS.isSpace c = false → ∃ r, JS.trimEnd (c :: s) = c :: r.
Proof.
  intros Hc. simpl. destruct (JS.trimEnd s); rewrite ?Hc; eauto.
Qed.

Lemma trimStart_trimEnd s :
  JS.trimStart (JS.trimEnd (JS.trimStart s)) = JS.trimEnd (JS.trimStart s).
Proof.
  induction s as [|c s IH]; simpl; [done|].
  destruct (JS.isSpace c) eqn:Hc; [exact IH|].
  destruct (trimEnd_keeps_head c s Hc) as [r Hr].
  rewrite Hr. simpl. by rewrite Hc.
Qed.

Lemma trim_idem s : JS.trim (JS.trim s) = JS.trim s.
Proof. unfold JS.trim. by rewrite trimStart_trimEnd, trimEnd_idem. Qed.

Lemma trimStart_length s :
  (length (JS.trimStart s) ≤ length s)%nat.
Proof.
  induction s as [|c s IH]; simpl; [done|].
  destruct (JS.isSpace c); simpl; lia.
Qed.

Lemma trimEnd_length s :
  (length (JS.trimEnd s) ≤ length s)%nat.
Proof.
  induction s as [|c s IH]; simpl; [done|].
  destruct (JS.trimEnd s) eqn:Ht; simpl in *.
  - destruct (JS.isSpace c); simpl; lia.
  - lia.
Qed.

Lemma trim_length s : JS.len (JS.trim s) ≤ JS.len s.
Proof.
  unfold JS.len, JS.trim.
  pose proof (trimEnd_length (JS.trimStart s)).
  pose proof (trimStart_length s). lia.
Qed.

(** [ceilDiv] is the ceiling of the quotient. *)
Lemma ceilDiv_spec a b :
  0 < b → b * (JS.ceilDiv a b - 1) < a ≤ b * JS.ceilDiv a b.
Proof.
  intros Hb. unfold JS.ceilDiv.
  pose proof (Z.div_mod (- a) b) as Hdm.
  pose proof (Z.mod_pos_bound (- a) b Hb). lia.
Qed.

End Strings.

(** ** Looking rooms up by code *)

Section FindOne.

Lemma findOneByCode_Some c s i r :
  findOneByCode c s = Some (i, r) → rooms s !! i = Some r ∧ code r = c.
Proof.
  unfold findOneByCode. intros H.
  apply find_some in H as [Hin Hc].
  apply list_elem_of_In, elem_of_map_to_list in Hin.
  by apply bool_decide_eq_true in Hc.
Qed.

Lemma findOneByCode_None c s i r :
  findOneByCode c s = None → rooms s !! i = Some r → code r ≠ c.
Proof.
  unfold findOneByCode. intros H Hi Hc.
  assert (Hin : In (i, r) (map_to_list (rooms s)))
    by by apply list_elem_of_In, elem_of_map_to_list.
  apply (find_none _ _ H) in Hin. simpl in Hin.
  by apply bool_decide_eq_false in Hin.
Qed.

Lemma findOneByCode_hit c s i r :
  rooms s !! i = Some r → code r = c → is_Some (findOneByCode c s).
Proof.
  intros Hi Hc. destruct (findOneByCode c s) eqn:Hf; [eauto|].
  by destruct (findOneByCode_None _ _ _ _ Hf Hi).
Qed.

(** With unique codes the lookup returns the room that carries the code. *)
Lemma findOneByCode_unique c s i r :
  uniqueCodes s → rooms s !! i = Some r → code r = c →
  findOneByCode c s = Some (i, r).
Proof.
  intros Hu Hi Hc.
  destruct (findOneByCode_hit _ _ _ _ Hi Hc) as [[j r'] Hf].
  destruct (findOneByCode_Some _ _ _ _ Hf) as [Hj Hc'].
  assert (j = i) as -> by (eapply Hu; eauto; congruence).
  congruence.
Qed.

End FindOne.

(** ** Joi schemas *)

Section Schemas.
Import RoomRoutes MessageRoutes.

Lemma str_required_ok key lo hi v :
  Joi.str key lo hi true v = None → ∃ s, v = Some s ∧ s ≠ [].
Proof.
  unfold Joi.str. destruct v as [s|]; [|done].
  case_bool_decide; [done|]. eauto.
Qed.

Lemma str_bounds_ok key lo hi req s :
  Joi.str key (Some lo) (Some hi) req (Some s) = None →
  lo ≤ JS.len s ≤ hi.
Proof.
  unfold Joi.str. case_bool_decide; [done|]. simpl.
  destruct (JS.len s <? lo) eqn:H1; [done|].
  destruct (hi <? JS.len s) eqn:H2; [done|]. lia.
Qed.

Lemma str_max_ok key lo hi req d :
  Joi.str key lo (Some hi) req d = None →
  from_option (λ x, JS.len x <=? hi) true d = true.
Proof.
  unfold Joi.str. destruct d as [x|]; [|done].
  case_bool_decide; [done|]. simpl.
  destruct (from_option _ _ lo); [done|].
  destruct (hi <? JS.len x) eqn:H2; [done|]. intros _. lia.
Qed.

Lemma str_optional_ok key lo hi v :
  Joi.str key lo hi false v = None → JS.orStr v None = v.
Proof.
  unfold Joi.str. destruct v as [t|]; [|done].
  case_bool_decide; [done|]. by destruct t.
Qed.

Lemma str_ok_intro key lo hi req s :
  s ≠ [] → lo ≤ JS.len s ≤ hi →
  Joi.str key (Some lo) (Some hi) req (Some s) = None.
Proof.
  intros Hs Hl. unfold Joi.str. rewrite bool_decide_eq_false_2 by done.
  simpl.
  destruct (JS.len s <? lo) eqn:H1; [lia|].
  destruct (hi <? JS.len s) eqn:H2; [lia|]. done.
Qed.

Lemma num_ok key lo hi n :
  Joi.num key lo hi (Some n) = None →
  (Qc_of_Z lo ≤ n)%Qc ∧ (n ≤ Qc_of_Z hi)%Qc.
Proof.
  unfold Joi.num. repeat case_bool_decide; try done. intros _.
  split; by apply Qcnot_lt_le.
Qed.

Lemma oneOf_ok key allowed v d :
  Joi.oneOf key allowed v = None → [] ∉ allowed →
  JS.orStr v (Some d) = Some (default d v).
Proof.
  unfold Joi.oneOf. destruct v as [t|]; [|done].
  case_bool_decide; [|done]. intros _ Hne.
  destruct t; [done|]. done.
Qed.

Lemma oneOf_member key allowed t :
  Joi.oneOf key allowed (Some t) = None → t ∈ allowed.
Proof. unfold Joi.oneOf. by case_bool_decide. Qed.

Lemma first_cons_None c cs :
  Joi.first (c :: cs) = None ↔ c = None ∧ Joi.first cs = None.
Proof.
  destruct c; simpl.
  - split; [done | by intros [? _]].
  - split; [done | by intros [_ ?]].
Qed.

(** The message types a body may name are cast to themselves, and none of
    them is [system]. *)
Lemma castType_allowed t :
  t ∈ [utf16 "text"; utf16 "image"; utf16 "file"] →
  ∃ ty, castType t = Some ty ∧ typeName ty = t ∧ ty ≠ system.
Proof.
  rewrite !elem_of_cons, elem_of_nil.
  intros [->|[->|[->|[]]]]; [exists text|exists image|exists file];
    by vm_compute.
Qed.

Lemma types_nonempty :
  [] ∉ [utf16 "text"; utf16 "image"; utf16 "file"].
Proof. rewrite !elem_of_cons, elem_of_nil. by intros [|[|[|]]]. Qed.

(** A body that passes [createRoomSchema] carries a name and a code. *)
Lemma createRoomSchema_ok b :
  createRoomSchema b = None →
  ∃ n c, body_name b = Some n ∧ body_code b = Some c
         ∧ n ≠ [] ∧ c ≠ [] ∧ 4 ≤ JS.len c ≤ 8.
Proof.
  unfold createRoomSchema.
  rewrite !first_cons_None. intros (Hn & Hc & _).
  destruct (str_required_ok _ _ _ _ Hn) as (n & En & Hn').
  destruct (str_required_ok _ _ _ _ Hc) as (c & Ec & Hc').
  rewrite Ec in Hc. apply str_bounds_ok in Hc.
  by exists n, c.
Qed.

(** The branch that generates a code is never taken: validation has
    already refused every body for which [!code] holds. *)
Lemma createRoomSchema_code_truthy b :
  createRoomSchema b = None → JS.falsy (body_code b) = false.
Proof.
  intros H. destruct (createRoomSchema_ok b H) as (n & c & _ & -> & _ & Hc & _).
  by destruct c.
Qed.

(** [POST /create] answers whatever the random draws are. *)
Lemma postCreate_total `{!Platform} draws now userId b s :
  is_Some (postCreate draws now userId b s).
Proof.
  unfold postCreate.
  destruct (createRoomSchema b) eqn:Hv; [eauto|].
  rewrite (createRoomSchema_code_truthy b Hv).
  destruct (createRoomSchema_ok b Hv) as (n & c & -> & -> & _).
  destruct (findOneByCode _ s); [eauto|].
  destruct (_ && _); eauto.
Qed.

(** Every request is answered. *)
Lemma handle_total `{!Platform} now userId req s :
  is_Some (handle now userId req s).
Proof. destruct req; simpl; eauto using postCreate_total. Qed.

End Schemas.

(** ** Validation on save *)

Section Validity.

Lemma roomValid_preSave now r : roomValid (preSave now r) = roomValid r.
Proof. done. Qed.

Lemma roomValid_touch now r : roomValid (touch now r) = roomValid r.
Proof. done. Qed.

Lemma roomValid_setMembers r ms : roomValid (setMembers r ms) = roomValid r.
Proof. done. Qed.

Lemma roomValid_bounds r :
  roomValid r = true →
  name r ≠ [] ∧ JS.len (name r) ≤ 50 ∧ 4 ≤ JS.len (code r) ≤ 8
  ∧ (Qc_of_Z 2 ≤ maxMembers r)%Qc ∧ (maxMembers r ≤ Qc_of_Z 100)%Qc.
Proof.
  unfold roomValid. rewrite !andb_true_iff, negb_true_iff.
  intros ((((((Hn & ?) & ?) & ?) & _) & H2) & H100).
  apply bool_decide_eq_false in Hn.
  apply bool_decide_eq_true in H2, H100.
  repeat split; try done; lia.
Qed.

Lemma contentValid_bounds c :
  contentValid c = true ↔ c ≠ [] ∧ JS.len c ≤ 1000.
Proof.
  unfold contentValid. rewrite andb_true_iff, negb_true_iff.
  rewrite bool_decide_eq_false, Z.leb_le. done.
Qed.

(** The number of members as a rational. *)
Lemma count_push (ms : list Member) m :
  Qc_of_Z (Z.of_nat (length (ms ++ [m])))
  = (Qc_of_Z (Z.of_nat (length ms)) + 1)%Qc.
Proof.
  rewrite length_app. simpl.
  replace (Z.of_nat (length ms + 1)) with (Z.of_nat (length ms) + 1) by lia.
  by rewrite Z2Qc_inj_add, Z2Qc_inj_1.
Qed.

Lemma count_mono (n k : nat) :
  (n ≤ k)%nat → (Qc_of_Z (Z.of_nat n) ≤ Qc_of_Z (Z.of_nat k))%Qc.
Proof. intros Hnk. apply (proj1 (Z2Qc_inj_le _ _)). lia. Qed.

End Validity.

(** ** Membership *)

Section Members.

Lemma isMember_true r userId :
  isMember r userId = true ↔ ∃ m, m ∈ members r ∧ user m = userId.
Proof.
  unfold isMember. rewrite existsb_exists. split.
  - intros (m & Hin & Hm). exists m. split; [by apply list_elem_of_In|].
    by apply bool_decide_eq_true in Hm.
  - intros (m & Hin & Hm). exists m. split; [by apply list_elem_of_In|].
    by apply bool_decide_eq_true.
Qed.

Lemma isMember_false r userId :
  isMember r userId = false ↔ ∀ m, m ∈ members r → user m ≠ userId.
Proof.
  rewrite <- not_true_iff_false, isMember_true. split.
  - intros H m Hin Hm. apply H. by exists m.
  - intros H (m & Hin & Hm). by apply (H m).
Qed.

(** On a room whose members all have a [User] record the populated test is
    the plain one. *)
Lemma somePopulated_known s r userId :
  membersKnown s r →
  somePopulated (users s) userId (members r) = Some (isMember r userId).
Proof.
  unfold membersKnown, isMember.
  induction (members r) as [|m ms IH]; intros Hk; simpl; [done|].
  destruct (Hk m) as [u ->]; [by left|].
  case_bool_decide; simpl; [done|].
  apply IH. intros m' Hm'. apply Hk. by right.
Qed.

(** The populated test answers [false] only when every member has a
    record and none is the caller. *)
Lemma somePopulated_false s r userId :
  somePopulated (users s) userId (members r) = Some false →
  membersKnown s r ∧ isMember r userId = false.
Proof.
  unfold membersKnown, isMember.
  induction (members r) as [|m ms IH]; simpl.
  - split; [|done]. intros m Hm. by apply elem_of_nil in Hm.
  - destruct (users s !! user m) eqn:Hu; [|done].
    case_bool_decide as Hne; [done|]. intros Hrest.
    destruct (IH Hrest) as [Hk Hm]. split; [|done].
    intros m' [->|Hin]%elem_of_cons; [by rewrite Hu|by apply Hk].
Qed.

(** The populated test answers [true] only for a member. *)
Lemma somePopulated_true s r userId :
  somePopulated (users s) userId (members r) = Some true →
  isMember r userId = true ∧ is_Some (users s !! userId).
Proof.
  unfold isMember.
  induction (members r) as [|m ms IH]; simpl; [done|].
  destruct (users s !! user m) eqn:Hu; [|done].
  case_bool_decide as Hm; simpl.
  - intros _. split; [done|]. by rewrite <- Hm, Hu.
  - done.
Qed.

Lemma elem_of_others userId ms m :
  m ∈ others userId ms ↔ m ∈ ms ∧ user m ≠ userId.
Proof.
  unfold others. rewrite list_elem_of_In, filter_In, <- list_elem_of_In.
  rewrite negb_true_iff, bool_decide_eq_false. done.
Qed.

Lemma others_id userId ms :
  (∀ m, m ∈ ms → user m ≠ userId) → others userId ms = ms.
Proof.
  induction ms as [|m ms IH]; intros H; simpl; [done|].
  rewrite bool_decide_eq_false_2 by (apply H; by left). simpl.
  f_equal. apply IH. intros m' Hm'. apply H. by right.
Qed.

Lemma others_app userId l1 l2 :
  others userId (l1 ++ l2) = others userId l1 ++ others userId l2.
Proof. unfold others. apply List.filter_app. Qed.

Lemma others_idem userId l : others userId (others userId l) = others userId l.
Proof.
  apply others_id. intros m Hm. by apply elem_of_others in Hm as [_ ?].
Qed.

Lemma others_own userId t ro : others userId [mkMember userId t ro] = [].
Proof. unfold others. simpl. by rewrite bool_decide_eq_true_2. Qed.

Lemma others_sublist userId l : others userId l `sublist_of` l.
Proof.
  induction l as [|m l IH]; simpl; [done|].
  destruct (negb _); by constructor.
Qed.

Lemma others_length userId l : (length (others userId l) ≤ length l)%nat.
Proof. apply sublist_length, others_sublist. Qed.

Lemma isMember_others r r' userId v :
  v ≠ userId → others userId (members r') = others userId (members r) →
  isMember r' v = isMember r v.
Proof.
  intros Hv Ho.
  assert (H : ∀ x y, others userId (members x) = others userId (members y) →
                     isMember x v = true → isMember y v = true).
  { intros x y Hxy (m & Hin & Hm)%isMember_true. apply isMember_true.
    exists m. split; [|done].
    assert (m ∈ others userId (members x))
      by (apply elem_of_others; split; [done|congruence]).
    rewrite Hxy in *. by apply elem_of_others in H as [? _]. }
  destruct (isMember r v) eqn:E1, (isMember r' v) eqn:E2; try done.
  - by rewrite (H r r') in E2.
  - by rewrite (H r' r) in E1.
Qed.

Lemma isMember_app r ms userId v t ro :
  members r = ms ++ [mkMember userId t ro] →
  isMember r v = existsb (λ m, bool_decide (user m = v)) ms
                 || bool_decide (userId = v).
Proof.
  intros Hm. unfold isMember. rewrite Hm, existsb_app. simpl.
  by rewrite orb_false_r.
Qed.

Lemma fresh_room_ne s i r : rooms s !! i = Some r → fresh (dom (rooms s)) ≠ i.
Proof.
  intros Hi Heq. apply (is_fresh (dom (rooms s))).
  rewrite Heq. by apply elem_of_dom.
Qed.

Lemma fresh_message_ne s i m :
  messages s !! i = Some m → fresh (dom (messages s)) ≠ i.
Proof.
  intros Hi Heq. apply (is_fresh (dom (messages s))).
  rewrite Heq. by apply elem_of_dom.
Qed.

End Members.

(** ** Every write of a route is one of the effects *)

Section Effects.
Context `{platform : !Platform}.
Import RoomRoutes MessageRoutes.

Lemma postCreate_effect draws now userId b s resp s' :
  postCreate draws now userId b s = Some (resp, s') →
  Effect now userId s (status resp) s'.
Proof.
  unfold postCreate. intros H.
  destruct (createRoomSchema b) eqn:Hv; [simplify_eq; constructor|].
  rewrite (createRoomSchema_code_truthy b Hv) in H.
  destruct (createRoomSchema_ok b Hv) as (n & c & En & Ec & _).
  rewrite En, Ec in H.
  destruct (findOneByCode _ s) eqn:Hf; [simplify_eq; constructor|].
  destruct (roomValid _) eqn:Hrv; simpl in H; [|simplify_eq; constructor].
  case_bool_decide as Hfree; [|simplify_eq; constructor].
  simplify_eq. simpl status. apply Created; try done.
  simpl. by rewrite toUpperCase_idem.
Qed.

Lemma postJoin_effect now userId c s resp s' :
  postJoin now userId c s = (resp, s') → Effect now userId s (status resp) s'.
Proof.
  unfold postJoin. intros H.
  destruct (joinRoomSchema c); [simplify_eq; constructor|].
  destruct c as [c|]; [|simplify_eq; constructor].
  destruct (findOneByCode _ s) as [[id r]|] eqn:Hf; [|simplify_eq; constructor].
  apply findOneByCode_Some in Hf as [Hid _].
  destruct (somePopulated _ _ _) as [[]|] eqn:Hsome;
    [simplify_eq; constructor| |simplify_eq; constructor].
  apply somePopulated_false in Hsome as [_ Hm].
  case_bool_decide as Hfull; [simplify_eq; constructor|].
  destruct (roomValid _) eqn:Hrv; [|simplify_eq; constructor].
  simplify_eq. simpl status.
  apply (Joined now userId s id r); [done..| |done].
  by apply Qcnot_le_lt.
Qed.

Lemma postLeave_effect now userId roomId s resp s' :
  postLeave now userId roomId s = (resp, s') →
  Effect now userId s (status resp) s'.
Proof.
  unfold postLeave. intros H.
  destruct (rooms s !! roomId) as [r|] eqn:Hr; [|simplify_eq; constructor].
  destruct (roomValid _) eqn:Hrv; [|simplify_eq; constructor].
  simplify_eq. by apply (Left now userId s roomId r).
Qed.

(** What [POST /send] builds from a body that passed the schema. *)
Lemma sendMessageSchema_type b :
  sendMessageSchema b = None →
  ∃ ty, JS.orStr (body_type b) (Some (utf16 "text")) ≫= castType = Some ty
        ∧ ty ≠ system
        ∧ (body_type b = None ∧ ty = text
           ∨ body_type b = Some (typeName ty)).
Proof.
  unfold sendMessageSchema. rewrite !first_cons_None.
  intros (_ & _ & Ht & _).
  rewrite (oneOf_ok _ _ _ _ Ht types_nonempty).
  destruct (body_type b) as [t|]; simpl.
  - destruct (castType_allowed t) as (ty & -> & <- & Hty);
      [by eapply oneOf_member|].
    exists ty. eauto.
  - exists text. split; [done|]. split; [done|]. by left.
Qed.

Lemma sendMessageSchema_replyTo b :
  sendMessageSchema b = None →
  castReplyTo (body_replyTo b)
  = match body_replyTo b with
    | None => Some None
    | Some raw => Some <$> castObjectId raw
    end.
Proof.
  unfold sendMessageSchema. rewrite !first_cons_None.
  intros (_ & _ & _ & Hrt & _). unfold castReplyTo.
  rewrite (str_optional_ok _ _ _ _ Hrt). by destruct (body_replyTo b).
Qed.

Lemma postSend_effect now userId b s resp s' :
  postSend now userId b s = (resp, s') → Effect now userId s (status resp) s'.
Proof.
  unfold postSend. intros H.
  destruct (sendMessageSchema b) eqn:Hv; [simplify_eq; constructor|].
  destruct (sendMessageSchema_type b Hv) as (ty & Hty & Hns & _).
  rewrite Hty in H.
  destruct (body_roomId b ≫= castObjectId) as [roomId|];
    [|simplify_eq; constructor].
  destruct (rooms s !! roomId) as [r|] eqn:Hr; [|simplify_eq; constructor].
  destruct (isMember r userId) eqn:Hm; cbn [negb] in H;
    [|simplify_eq; constructor].
  destruct (body_content b) as [c|]; [|simplify_eq; constructor].
  destruct (castReplyTo (body_replyTo b)) as [reply|];
    [|simplify_eq; constructor].
  cbn [content] in H.
  destruct (contentValid (JS.trim c)) eqn:Hcv; [|simplify_eq; constructor].
  rewrite roomValid_preSave, roomValid_touch in H.
  destruct (roomValid r) eqn:Hrv; simplify_eq; simpl status.
  - apply (Sent now userId s roomId r); try done. apply trim_idem.
  - apply (SentOnly now userId s roomId r); try done. apply trim_idem.
Qed.

Lemma postRead_effect now userId messageId s resp s' :
  postRead now userId messageId s = (resp, s') →
  Effect now userId s (status resp) s'.
Proof.
  unfold postRead. intros H.
  destruct (messages s !! messageId) as [m|] eqn:Hm; [|simplify_eq; constructor].
  destruct (alreadyRead userId m) eqn:Hr; cbn [negb] in H;
    [simplify_eq; constructor|].
  cbn [content addReceipt] in H.
  destruct (contentValid (content m)) eqn:Hcv; simplify_eq; [|constructor].
  by apply (Read now userId s messageId m).
Qed.

Lemma putMessage_effect now userId messageId c s resp s' :
  putMessage now userId messageId c s = (resp, s') →
  Effect now userId s (status resp) s'.
Proof.
  unfold putMessage. intros H.
  destruct c as [c|]; [|simplify_eq; constructor].
  destruct (_ || _); [simplify_eq; constructor|].
  destruct (messages s !! messageId) as [m|] eqn:Hm; [|simplify_eq; constructor].
  destruct (bool_decide (sender m = userId)) eqn:Hs; cbn [negb] in H;
    [|simplify_eq; constructor].
  apply bool_decide_eq_true in Hs.
  cbn [content editContent] in H.
  destruct (contentValid _) eqn:Hcv; simplify_eq; [|constructor].
  apply (Edited now (sender m) s messageId m (JS.trim (JS.trim c)));
    try done. apply trim_idem.
Qed.

Lemma deleteMessage_effect userId messageId now s resp s' :
  deleteMessage userId messageId s = (resp, s') →
  Effect now userId s (status resp) s'.
Proof.
  unfold deleteMessage. intros H.
  destruct (messages s !! messageId) as [m|] eqn:Hm; [|simplify_eq; constructor].
  destruct (bool_decide (sender m = userId)) eqn:Hs; cbn [negb] in H;
    simplify_eq; [|constructor].
  apply bool_decide_eq_true in Hs. subst.
  by apply (Deleted now (sender m) s messageId m).
Qed.

Lemma handle_effect now userId req s resp s' :
  handle now userId req s = Some (resp, s') →
  Effect now userId s (status resp) s'.
Proof.
  destruct req; simpl; intros H; simplify_eq;
    eauto using postCreate_effect, postJoin_effect, postLeave_effect,
      postSend_effect, postRead_effect, putMessage_effect,
      deleteMessage_effect, NoChange.
Qed.

Lemma handle_pair now userId req (out : Response * Store) s :
  handle now userId req s = Some out →
  handle now userId req s = Some (out.1, out.2).
Proof. by destruct out. Qed.

End Effects.

Ltac effect_cases He :=
  destruct He as
    [ st
    | r Hvalid Hcreator Hmembers Hupper Hfree
    | id r Hroom Hnot Hless Hvalid
    | id r Hroom Hvalid
    | roomId r m Hroom Hmember Hsender Hin Htype Hedited Hread Hat Hcontent
        Htrim Hvalid
    | roomId r m Hroom Hmember Hsender Hin Htype Hedited Hread Hat Hcontent
        Htrim Hvalid
    | id m Hmsg Hunread Hcontent
    | id m c Hmsg Hsender Hcontent Htrim
    | id m Hmsg Hsender ].

(** ** What an effect keeps *)

Section Frames.
Context `{platform : !Platform}.

(** Rooms stay, with their identity and with the entries of everyone but
    the caller. *)
Lemma Effect_room now userId s st s' i r :
  Effect now userId s st s' → rooms s !! i = Some r →
  ∃ r', rooms s' !! i = Some r'
        ∧ name r' = name r ∧ code r' = code r
        ∧ description r' = description r ∧ creator r' = creator r
        ∧ maxMembers r' = maxMembers r ∧ isPrivate r' = isPrivate r
        ∧ roomCreatedAt r' = roomCreatedAt r
        ∧ others userId (members r') = others userId (members r).
Proof.
  intros He Hi. destruct He; simpl.
  - by exists r.
  - exists r. by rewrite lookup_insert_ne by by eapply fresh_room_ne.
  - destruct (decide (id = i)) as [->|Hne].
    + rewrite lookup_insert_eq. simplify_eq. eexists. split; [done|].
      simpl. by rewrite others_app, others_own, app_nil_r.
    + exists r. by rewrite lookup_insert_ne.
  - destruct (decide (id = i)) as [->|Hne].
    + rewrite lookup_insert_eq. simplify_eq. eexists. split; [done|].
      simpl. by rewrite others_idem.
    + exists r. by rewrite lookup_insert_ne.
  - destruct (decide (roomId = i)) as [->|Hne].
    + rewrite lookup_insert_eq. simplify_eq. eexists. by split.
    + exists r. by rewrite lookup_insert_ne.
  - by exists r.
  - by exists r.
  - by exists r.
  - by exists r.
Qed.

(** A room that appears was created by the caller. *)
Lemma Effect_new_room now userId s st s' i r' :
  Effect now userId s st s' → rooms s !! i = None → rooms s' !! i = Some r' →
  st = 201 ∧ creator r' = userId ∧ members r' = [mkMember userId now admin]
  ∧ roomValid r' = true ∧ toUpperCase (code r') = code r'.
Proof.
  intros He Hi. destruct He; simpl; try congruence.
  - rewrite lookup_insert. case_decide; intros; simplify_eq. done.
  - rewrite lookup_insert. case_decide; intros; simplify_eq.
  - rewrite lookup_insert. case_decide; intros; simplify_eq.
  - rewrite lookup_insert. case_decide; intros; simplify_eq.
Qed.

(** Only the record of the caller is written, and none is added. *)
Lemma Effect_users now userId s st s' :
  Effect now userId s st s' →
  (∀ v, v ≠ userId → users s' !! v = users s !! v)
  ∧ (∀ v, is_Some (users s' !! v) ↔ is_Some (users s !! v)).
Proof.
  intros He.
  destruct He; simpl; try done; unfold pushUserRoom, pullUserRoom;
    (split; [intros v Hv; by rewrite lookup_alter_ne
            |intros v; rewrite lookup_alter; case_decide; [subst|done];
             by rewrite fmap_is_Some]).
Qed.

(** A message that stays keeps what identifies it; its receipts are only
    added to, the edited mark is not taken back, and its content changes
    at the hand of its sender only. *)
Lemma Effect_message now userId s st s' i m m' :
  Effect now userId s st s' →
  messages s !! i = Some m → messages s' !! i = Some m' →
  sender m' = sender m ∧ room m' = room m ∧ type m' = type m
  ∧ replyTo m' = replyTo m ∧ createdAt m' = createdAt m
  ∧ (edited m = true → edited m' = true)
  ∧ readBy m `prefix_of` readBy m'
  ∧ (content m' ≠ content m → sender m = userId).
Proof.
  intros He Hi. destruct He; simpl; intros Hi'; simplify_eq; try done.
  - rewrite lookup_insert_ne in Hi' by by eapply fresh_message_ne.
    by simplify_eq.
  - rewrite lookup_insert_ne in Hi' by by eapply fresh_message_ne.
    by simplify_eq.
  - rewrite lookup_insert in Hi'. case_decide; simplify_eq; [|done].
    simpl. repeat split; try done. by apply prefix_app_r.
  - rewrite lookup_insert in Hi'. case_decide; simplify_eq; done.
  - apply lookup_delete_Some in Hi' as [_ ?]. by simplify_eq.
Qed.

(** A message that goes is deleted by its sender. *)
Lemma Effect_message_gone now userId s st s' i m :
  Effect now userId s st s' →
  messages s !! i = Some m → messages s' !! i = None →
  sender m = userId.
Proof.
  intros He Hi. destruct He; simpl; intros Hi'; simplify_eq; try done.
  - rewrite lookup_insert_ne in Hi' by by eapply fresh_message_ne.
    by simplify_eq.
  - rewrite lookup_insert_ne in Hi' by by eapply fresh_message_ne.
    by simplify_eq.
  - rewrite lookup_insert in Hi'. case_decide; simplify_eq.
  - rewrite lookup_insert in Hi'. case_decide; simplify_eq.
  - apply lookup_delete_None in Hi' as [?|?]; by simplify_eq.
Qed.

(** A message that appears was sent by the caller, a member of its room;
    the answer is 201, or 500 when the save of the room failed after the
    message had been saved. *)
Lemma Effect_new_message now userId s st s' i m' :
  Effect now userId s st s' →
  messages s !! i = None → messages s' !! i = Some m' →
  (st = 201 ∨ st = 500 ∧ rooms s' = rooms s)
  ∧ sender m' = userId ∧ type m' ≠ system
  ∧ edited m' = false ∧ readBy m' = [] ∧ createdAt m' = now
  ∧ contentValid (content m') = true
  ∧ ∃ r, rooms s !! room m' = Some r ∧ isMember r userId = true
         ∧ (st = 201 ↔ roomValid r = true).
Proof.
  intros He Hi. destruct He; simpl; intros Hi'; simplify_eq; try done.
  - rewrite lookup_insert in Hi'. case_decide; simplify_eq.
    repeat split; try done; eauto. exists r. by repeat split.
  - rewrite lookup_insert in Hi'. case_decide; simplify_eq.
    repeat split; try done; eauto. exists r. repeat split; try done.
    congruence.
  - rewrite lookup_insert in Hi'. case_decide; simplify_eq.
  - rewrite lookup_insert in Hi'. case_decide; simplify_eq.
  - apply lookup_delete_Some in Hi' as [_ ?]. by simplify_eq.
Qed.

(** An error writes nothing, but for the send that fails on the room. *)
Lemma Effect_error now userId s st s' :
  Effect now userId s st s' → 400 ≤ st →
  rooms s' = rooms s ∧ users s' = users s
  ∧ (∀ i m, messages s !! i = Some m → messages s' !! i = Some m)
  ∧ (st < 500 ∨ roomsValid s → s' = s).
Proof.
  intros He Hst. destruct He; try lia; [done|].
  simpl. repeat split.
  - intros i m' Hi. by rewrite lookup_insert_ne by by eapply fresh_message_ne.
  - intros [?|Hrv]; [lia|]. specialize (Hrv _ _ H). congruence.
Qed.

End Frames.

(** ** Invariants kept by every effect *)

Section EffectInvariants.
Context `{platform : !Platform}.

Lemma Effect_uniqueCodes now userId s st s' :
  Effect now userId s st s' → uniqueCodes s → uniqueCodes s'.
Proof.
  intros He Hinv. effect_cases He; try done; intros i j r1 r2; simpl;
    rewrite ?lookup_insert; repeat case_decide; intros; simplify_eq;
    try done; try (by eapply Hinv); try (eapply Hinv; eauto; congruence).
  - by destruct (findOneByCode_None _ _ _ _ Hfree H2).
  - by destruct (findOneByCode_None _ _ _ _ Hfree H1).
Qed.

Lemma Effect_upperCodes now userId s st s' :
  Effect now userId s st s' → upperCodes s → upperCodes s'.
Proof.
  intros He Hinv. effect_cases He; try done; intros i r'; simpl;
    rewrite ?lookup_insert; repeat case_decide; intros; simplify_eq;
    try done; try (by eapply Hinv); exact (Hinv _ _ Hroom).
Qed.

Lemma Effect_capacity now userId s st s' :
  Effect now userId s st s' → withinCapacity s → withinCapacity s'.
Proof.
  intros He Hinv. effect_cases He; try done; intros i r'; simpl;
    rewrite ?lookup_insert; repeat case_decide; intros; simplify_eq;
    try (by eapply Hinv).
  - apply roomValid_bounds in Hvalid as (_ & _ & _ & H2 & _).
    rewrite Hmembers.
    change (Z.of_nat (length [_])) with (0 + 1).
    rewrite Z2Qc_inj_add, Z2Qc_inj_1.
    apply Qcplus_lt_mono_r. eapply Qclt_le_trans; [|exact H2].
    by apply (proj1 (Z2Qc_inj_lt _ _)).
  - simpl. rewrite count_push. by apply Qcplus_lt_mono_r.
  - simpl. eapply Qcle_lt_trans; [|exact (Hinv _ _ Hroom)].
    apply count_mono, others_length.
  - simpl. by eapply Hinv.
Qed.

Lemma Effect_distinct now userId s st s' :
  Effect now userId s st s' → distinctMembers s → distinctMembers s'.
Proof.
  intros He Hinv. effect_cases He; try done; intros i r'; simpl;
    rewrite ?lookup_insert; repeat case_decide; intros; simplify_eq;
    try (by eapply Hinv).
  - rewrite Hmembers. simpl. apply NoDup_singleton.
  - simpl. rewrite fmap_app. apply NoDup_app. split; [by eapply Hinv|].
    split; [|apply NoDup_singleton].
    intros x Hx Hx'. apply list_elem_of_singleton in Hx'. simpl in Hx'. subst x.
    apply list_elem_of_fmap in Hx as (m & Hu & Hm).
    destruct (isMember_false r userId) as [Hall _].
    by eapply Hall.
  - simpl. eapply sublist_NoDup; [apply (Hinv _ _ Hroom)|].
    apply fmap_sublist, others_sublist.
  - simpl. by eapply Hinv.
Qed.

Lemma Effect_roomsValid now userId s st s' :
  Effect now userId s st s' → roomsValid s → roomsValid s'.
Proof.
  intros He Hinv. effect_cases He; try done; intros i r'; simpl;
    rewrite ?lookup_insert; repeat case_decide; intros; simplify_eq;
    try (by eapply Hinv); done.
Qed.

Lemma Effect_contentsValid now userId s st s' :
  Effect now userId s st s' → contentsValid s → contentsValid s'.
Proof.
  intros He Hinv. effect_cases He; try done; intros i m'; simpl.
  - rewrite lookup_insert. case_decide; intros; simplify_eq;
      [done | by eapply Hinv].
  - rewrite lookup_insert. case_decide; intros; simplify_eq;
      [done | by eapply Hinv].
  - rewrite lookup_insert. case_decide; intros; simplify_eq;
      [exact (Hinv _ _ Hmsg) | by eapply Hinv].
  - rewrite lookup_insert. case_decide; intros; simplify_eq;
      [done | by eapply Hinv].
  - rewrite lookup_delete_Some. intros [_ ?]. by eapply Hinv.
Qed.

Lemma lookup_pushUserRoom userId id us uid u :
  pushUserRoom userId id us !! uid = Some u →
  ∃ u0, us !! uid = Some u0
        ∧ (uid = userId ∧ userRooms u = userRooms u0 ++ [id]
           ∨ uid ≠ userId ∧ u = u0).
Proof.
  unfold pushUserRoom. rewrite lookup_alter. case_decide; [subst|by eauto].
  destruct (us !! uid) as [u0|]; simpl; intros; simplify_eq. eauto.
Qed.

Lemma lookup_pullUserRoom userId id us uid u :
  pullUserRoom userId id us !! uid = Some u →
  ∃ u0, us !! uid = Some u0
        ∧ (uid = userId ∧ (∀ j, j ∈ userRooms u ↔ j ∈ userRooms u0 ∧ j ≠ id)
           ∨ uid ≠ userId ∧ u = u0).
Proof.
  unfold pullUserRoom. rewrite lookup_alter. case_decide; [subst|by eauto].
  destruct (us !! uid) as [u0|]; simpl; intros; simplify_eq.
  eexists. split; [done|]. left. split; [done|]. intros j. simpl.
  rewrite !list_elem_of_In, filter_In, negb_true_iff, bool_decide_eq_false.
  done.
Qed.

Lemma Effect_userRoomsSound now userId s st s' :
  Effect now userId s st s' → userRoomsSound s → userRoomsSound s'.
Proof.
  intros He Hinv. effect_cases He; try done; intros uid u rid; simpl.
  - (* created *)
    intros (u0 & Hu0 & Hcase)%lookup_pushUserRoom Hrid.
    destruct Hcase as [[-> Hrooms]|[Hne ->]].
    + rewrite Hrooms, elem_of_app, list_elem_of_singleton in Hrid.
      destruct Hrid as [Hold| ->].
      * destruct (Hinv _ _ _ Hu0 Hold) as (r0 & Hr0 & Hm0).
        exists r0. by rewrite lookup_insert_ne by by eapply fresh_room_ne.
      * exists r. rewrite lookup_insert_eq. split; [done|].
        unfold isMember. rewrite Hmembers. simpl.
        by rewrite bool_decide_eq_true_2.
    + destruct (Hinv _ _ _ Hu0 Hrid) as (r0 & Hr0 & Hm0).
      exists r0. by rewrite lookup_insert_ne by by eapply fresh_room_ne.
  - (* joined *)
    intros (u0 & Hu0 & Hcase)%lookup_pushUserRoom Hrid.
    destruct (decide (rid = id)) as [->|Hne].
    + eexists. rewrite lookup_insert_eq. split; [done|].
      erewrite isMember_app by done.
      destruct Hcase as [[-> _]|[Hneu ->]].
      * by rewrite bool_decide_eq_true_2, orb_true_r.
      * destruct (Hinv _ _ _ Hu0 Hrid) as (r0 & Hr0 & Hm0). simplify_eq.
        unfold isMember in Hm0. by rewrite Hm0.
    + rewrite lookup_insert_ne by done.
      destruct Hcase as [[-> Hrooms]|[Hneu ->]].
      * rewrite Hrooms, elem_of_app, list_elem_of_singleton in Hrid.
        destruct Hrid as [Hold|?]; [|done]. by eapply Hinv.
      * by eapply Hinv.
  - (* left *)
    intros (u0 & Hu0 & Hcase)%lookup_pullUserRoom Hrid.
    destruct Hcase as [[-> Hrooms]|[Hneu ->]].
    + apply Hrooms in Hrid as [Hold Hne].
      rewrite lookup_insert_ne by done. by eapply Hinv.
    + destruct (Hinv _ _ _ Hu0 Hrid) as (r0 & Hr0 & Hm0).
      destruct (decide (rid = id)) as [->|Hne].
      * simplify_eq. eexists. rewrite lookup_insert_eq. split; [done|].
        rewrite <- Hm0. apply (isMember_others _ _ userId); [done|].
        simpl. apply others_idem.
      * exists r0. by rewrite lookup_insert_ne.
  - (* sent *)
    intros Hu Hrid. destruct (Hinv _ _ _ Hu Hrid) as (r0 & Hr0 & Hm0).
    destruct (decide (rid = roomId)) as [->|Hne].
    + simplify_eq. eexists. rewrite lookup_insert_eq. by split.
    + exists r0. by rewrite lookup_insert_ne.
Qed.

(** Every member of every room keeps a [User] record, when the caller has
    one. *)
Lemma Effect_membersKnown now userId s st s' :
  Effect now userId s st s' → is_Some (users s !! userId) →
  (∀ i r, rooms s !! i = Some r → membersKnown s r) →
  ∀ i r, rooms s' !! i = Some r → membersKnown s' r.
Proof.
  intros He Hu Hinv i r' Hi m Hm.
  apply (Effect_users _ _ _ _ _ He).
  destruct (rooms s !! i) as [r|] eqn:Hold.
  - destruct (Effect_room _ _ _ _ _ _ _ He Hold)
      as (r'' & Hi' & _ & _ & _ & _ & _ & _ & _ & Ho).
    rewrite Hi in Hi'. simplify_eq.
    destruct (decide (user m = userId)) as [->|Hne]; [done|].
    assert (Hin : m ∈ others userId (members r''))
      by by apply elem_of_others.
    rewrite Ho in Hin. apply elem_of_others in Hin as [Hin _].
    by eapply Hinv.
  - destruct (Effect_new_room _ _ _ _ _ _ _ He Hold Hi)
      as (_ & _ & Hms & _).
    rewrite Hms in Hm. apply list_elem_of_singleton in Hm as ->. done.
Qed.

End EffectInvariants.

Ltac known_by_cases :=
  let m := fresh "m" in
  let Hm := fresh "Hm" in
  intros m Hm; simpl in Hm;
  repeat (apply elem_of_cons in Hm as [->|Hm];
          [vm_compute; eexists; reflexivity|]);
  apply elem_of_nil in Hm; destruct Hm.

(** ** The sample store is well formed *)

Section SampleFacts.

Lemma sample_room i r :
  rooms Sample.store !! i = Some r → i = Sample.roomId ∧ r = Sample.team.
Proof. simpl. intros [<- <-]%lookup_singleton_Some. done. Qed.

Lemma sample_message i m :
  messages Sample.store !! i = Some m → i = Sample.messageId ∧ m = Sample.hi.
Proof. simpl. intros [<- <-]%lookup_singleton_Some. done. Qed.

Lemma sample_uniqueCodes : uniqueCodes Sample.store.
Proof.
  intros i j r1 r2 Hi Hj _.
  apply sample_room in Hi as [-> _]. by apply sample_room in Hj as [-> _].
Qed.

Lemma sample_upperCodes : upperCodes Sample.store.
Proof. intros i r [-> ->]%sample_room. by vm_compute. Qed.

Lemma sample_codesOk : codesOk Sample.store.
Proof. split; [apply sample_uniqueCodes|apply sample_upperCodes]. Qed.

Lemma sample_withinCapacity : withinCapacity Sample.store.
Proof. intros i r [-> ->]%sample_room. by vm_compute. Qed.

Lemma sample_distinctMembers : distinctMembers Sample.store.
Proof.
  intros i r [-> ->]%sample_room. simpl.
  apply NoDup_cons. split; [|apply NoDup_singleton].
  rewrite list_elem_of_singleton. discriminate.
Qed.

Lemma sample_roomsValid : roomsValid Sample.store.
Proof. intros i r [-> ->]%sample_room. by vm_compute. Qed.

Lemma sample_contentsValid : contentsValid Sample.store.
Proof. intros i m [-> ->]%sample_message. by vm_compute. Qed.

Lemma sample_userRoomsSound : userRoomsSound Sample.store.
Proof.
  intros uid u rid. simpl. rewrite !lookup_insert, lookup_singleton.
  repeat case_decide; intros Hu Hrid; simplify_eq; simpl in Hrid.
  - apply list_elem_of_singleton in Hrid as ->. by exists Sample.team.
  - apply list_elem_of_singleton in Hrid as ->. by exists Sample.team.
  - by apply elem_of_nil in Hrid.
Qed.

Lemma sample_membersKnown i r :
  rooms Sample.store !! i = Some r → membersKnown Sample.store r.
Proof. intros [-> ->]%sample_room. known_by_cases. Qed.

Lemma sample_oneReceiptPerUser : oneReceiptPerUser Sample.store.
Proof.
  intros i m userId [-> ->]%sample_message. unfold receiptsOf. simpl. lia.
Qed.

End SampleFacts.

(** ** Claims about rooms *)

Section RoomClaims.
Context `{platform : !Platform}.
Import RoomRoutes.

(** C1.  The specification has a create request without a code answered
    201 with a generated code.  The route does otherwise:
    [createRoomSchema] marks [code] as required, so every body without a
    code is answered 400 and the store is left as it was, whatever the
    other fields and the random draws are.  The branch that generates a
    code is never reached. *)
Theorem create_without_code_is_refused draws now userId n d mm p s :
  ∃ e, postCreate draws now userId (mkCreateBody n None d mm p) s
       = Some (mkResponse 400 (Invalid "Données invalides" e), s).
Proof.
  unfold postCreate, createRoomSchema. simpl.
  destruct (Joi.str "name" _ _ _ n); eauto.
Qed.

Lemma generateRoomCode_length r :
  (String.length (generateRoomCode r) ≤ 6)%nat.
Proof.
  unfold generateRoomCode, JS.substring. rewrite upperCase36_length.
  apply substring_length_le.
Qed.

(** A join request that passed the schema and found a room tests the
    capacity when every member has a [User] record and the caller is none
    of them. *)
Lemma postJoin_found now userId c s id r :
  joinRoomSchema (Some c) = None →
  findOneByCode (toUpperCase c) s = Some (id, r) →
  membersKnown s r → isMember r userId = false →
  postJoin now userId (Some c) s
  = if bool_decide
         (maxMembers r ≤ Qc_of_Z (Z.of_nat (length (members r))))%Qc
    then (mkResponse 409 (Msg "La salle est pleine"), s)
    else if roomValid r then
      (json (MsgRoom "Vous avez rejoint la salle avec succès" id
               (preSave now
                  (setMembers r (members r ++ [mkMember userId now member])))),
       mkStore (<[id := preSave now
                          (setMembers r
                             (members r ++ [mkMember userId now member]))]>
                  (rooms s))
               (messages s) (pushUserRoom userId id (users s)))
    else (internalError, s).
Proof.
  intros Hv Hf Hk Hm. unfold postJoin.
  by rewrite Hv, Hf, (somePopulated_known _ _ _ Hk), Hm.
Qed.

(** C3, as amended.  A valid join request that resolves to a room whose
    members all have a [User] record, of which the caller is not a member
    and whose member list has reached [maxMembers], is answered 409, and
    the store, hence the member list of the room, is left as it was. *)
Theorem join_full_room_conflict now userId c s id r :
  joinRoomSchema (Some c) = None →
  findOneByCode (toUpperCase c) s = Some (id, r) →
  membersKnown s r →
  isMember r userId = false →
  (maxMembers r ≤ Qc_of_Z (Z.of_nat (length (members r))))%Qc →
  postJoin now userId (Some c) s
  = (mkResponse 409 (Msg "La salle est pleine"), s)
  ∧ rooms (postJoin now userId (Some c) s).2 !! id = Some r.
Proof.
  intros Hv Hf Hk Hm Hfull.
  destruct (findOneByCode_Some _ _ _ _ Hf) as [Hid _].
  rewrite (postJoin_found _ _ _ _ _ _ Hv Hf Hk Hm).
  by rewrite bool_decide_eq_true_2.
Qed.

(** C7.  A valid create request whose code equals, case ignored, the code
    of a room of the store is answered 409 and creates nothing; and every
    request is answered and leaves the store with no two rooms sharing a
    code (and every code upper case). *)
Theorem room_codes_stay_unique :
  (∀ draws now userId b c s id r,
      upperCodes s → createRoomSchema b = None → body_code b = Some c →
      rooms s !! id = Some r →
      toUpperCase (code r) = toUpperCase c →
      postCreate draws now userId b s
      = Some (mkResponse 409 (Msg "Ce code de salle existe déjà"), s))
  ∧ (∀ now userId req s,
        uniqueCodes s → upperCodes s →
        ∃ resp s', handle now userId req s = Some (resp, s')
                   ∧ uniqueCodes s' ∧ upperCodes s').
Proof.
  split.
  - intros draws now userId b c s id r Hup Hv Hc Hid Heq.
    unfold postCreate.
    rewrite Hv, (createRoomSchema_code_truthy b Hv), Hc.
    rewrite (Hup _ _ Hid) in Heq.
    by destruct (findOneByCode_hit _ _ _ _ Hid Heq) as [x ->].
  - intros now userId req s Hu Hup.
    destruct (handle_total now userId req s) as [[resp s'] Hh].
    exists resp, s'. split; [done|].
    pose proof (handle_effect _ _ _ _ _ _ Hh) as He.
    eauto using Effect_uniqueCodes, Effect_upperCodes.
Qed.

End RoomClaims.

Section RoomExamples.
Import RoomRoutes.

(** The request of the scenario, [{ name: "Team" }]. *)
Example create_team_without_code draws :
  postCreate draws 5000 Sample.carol
    (mkCreateBody (Some (utf16 "Team")) None None None None) Sample.store
  = Some (mkResponse 400
            (Invalid "Données invalides" (mkJoiError "code" any_required)),
          Sample.store).
Proof. reflexivity. Qed.

(** [generateRoomCode] keeps at most six characters and may keep fewer
    than four: [0.5] prints as [0.i] in base 36. *)
Example generateRoomCode_short : generateRoomCode "0.i" = "I".
Proof. reflexivity. Qed.

Lemma join_full_room_conflict_witness :
  postJoin 5000 Sample.carol (Some (utf16 "team")) Sample.store
  = (mkResponse 409 (Msg "La salle est pleine"), Sample.store)
  ∧ rooms (postJoin 5000 Sample.carol (Some (utf16 "team")) Sample.store).2
      !! Sample.roomId = Some Sample.team.
Proof.
  apply (join_full_room_conflict 5000 Sample.carol (utf16 "team")
           Sample.store Sample.roomId Sample.team).
  - reflexivity.
  - vm_compute. reflexivity.
  - known_by_cases.
  - reflexivity.
  - by vm_compute.
Defined.

(** C3, as stated, fails when a member of the room has no [User] record:
    the room is full and Carol is not a member of it, but Bob's record is
    gone, the test of membership on the populated room throws on his entry
    and the request is answered 500, not 409. *)
Lemma join_full_room_of_unknown_member :
  joinRoomSchema (Some (utf16 "team")) = None
  ∧ findOneByCode (toUpperCase (utf16 "team")) Demo.orphaned
    = Some (Sample.roomId, Sample.team)
  ∧ isMember Sample.team Sample.carol = false
  ∧ (maxMembers Sample.team
     ≤ Qc_of_Z (Z.of_nat (length (members Sample.team))))%Qc
  ∧ users Demo.orphaned !! Sample.bob = None
  ∧ postJoin 5000 Sample.carol (Some (utf16 "team")) Demo.orphaned
    = (internalError, Demo.orphaned)
  ∧ status (postJoin 5000 Sample.carol (Some (utf16 "team"))
              Demo.orphaned).1 ≠ 409.
Proof. repeat split; by vm_compute. Qed.

Lemma room_codes_stay_unique_witness :
  postCreate [] 5000 Sample.carol
    (mkCreateBody (Some (utf16 "Other")) (Some [233; 116; 233; 115]%N)
                  None None None) Demo.etes
  = Some (mkResponse 409 (Msg "Ce code de salle existe déjà"), Demo.etes)
  ∧ ∃ resp s',
      handle 5000 Sample.carol
        (CreateRoom [] (mkCreateBody (Some (utf16 "Dev")) (Some (utf16 "devs"))
                                     None None None))
        Sample.store = Some (resp, s')
      ∧ uniqueCodes s' ∧ upperCodes s'.
Proof.
  destruct room_codes_stay_unique as [Hdup Hinv]. split.
  - apply (Hdup [] 5000 Sample.carol _ [233; 116; 233; 115]%N Demo.etes
             Sample.roomId
             (mkRoom (utf16 "Summers") [201; 84; 201; 83]%N None Sample.alice
                     [mkMember Sample.alice 1000 admin]
                     (Qc_of_Z 50) false 1000 1000)).
    + intros i r Hi. simpl in Hi.
      apply lookup_singleton_Some in Hi as [<- <-]. by vm_compute.
    + reflexivity.
    + reflexivity.
    + reflexivity.
    + by vm_compute.
  - apply Hinv; apply sample_codesOk.
Defined.

(** The create request of the witness does add a room. *)
Example create_devs :
  (status ∘ fst) <$>
    postCreate [] 5000 Sample.carol
      (mkCreateBody (Some (utf16 "Dev")) (Some (utf16 "devs")) None None None)
      Sample.store
  = Some 201.
Proof. vm_compute. reflexivity. Qed.

(** A room comes to hold a member without a [User] record through the
    routes themselves: a caller whose record is gone joins the room with
    space for a third, and the next join, by Carol, is answered 500. *)
Example join_after_unknown_member :
  users Demo.roomy !! "65a000000000000000000009" = None
  ∧ status (postJoin 5000 "65a000000000000000000009" (Some (utf16 "team"))
              Demo.roomy).1 = 200
  ∧ postJoin 6000 Sample.carol (Some (utf16 "team"))
      (postJoin 5000 "65a000000000000000000009" (Some (utf16 "team"))
         Demo.roomy).2
    = (internalError,
       (postJoin 5000 "65a000000000000000000009" (Some (utf16 "team"))
          Demo.roomy).2).
Proof. repeat split; vm_compute; reflexivity. Qed.

(** The upper case of a code may be longer than the code: five sharp s
    pass the schema of the route, become ten letters and fail the
    validators of the model. *)
Example create_sharp_s :
  postCreate [] 5000 Sample.carol
    (mkCreateBody (Some (utf16 "Dev")) (Some [223; 223; 223; 223; 223]%N)
                  None None None) Sample.store
  = Some (internalError, Sample.store).
Proof. vm_compute. reflexivity. Qed.

End RoomExamples.

(** ** Leaving a room *)

Section Leave.
Import RoomRoutes.

Lemma pullUserRoom_lookup userId roomId us u :
  us !! userId = Some u →
  ∃ u', pullUserRoom userId roomId us !! userId = Some u'
        ∧ (roomId ∉ userRooms u')
        ∧ ∀ j, j ≠ roomId → (j ∈ userRooms u' ↔ j ∈ userRooms u).
Proof.
  intros Hu. unfold pullUserRoom. rewrite lookup_alter_eq, Hu. simpl.
  eexists. split; [done|]. simpl. split.
  - rewrite list_elem_of_In, filter_In, negb_true_iff, bool_decide_eq_false.
    tauto.
  - intros j Hj.
    rewrite !list_elem_of_In, filter_In, negb_true_iff, bool_decide_eq_false.
    tauto.
Qed.

(** Leaving a room that passes the validators of its schema. *)
Lemma postLeave_valid now userId roomId s r :
  rooms s !! roomId = Some r → roomValid r = true →
  postLeave now userId roomId s
  = (json (Msg "Vous avez quitté la salle avec succès"),
     mkStore (<[roomId := preSave now
                             (setMembers r (others userId (members r)))]>
                (rooms s))
             (messages s) (pullUserRoom userId roomId (users s))).
Proof.
  intros Hr Hv. unfold postLeave.
  by rewrite Hr, roomValid_preSave, roomValid_setMembers, Hv.
Qed.

(** C9.  Leaving a room of the store, which passes the validators of its
    schema as every room saved by the routes does, succeeds with status
    200.  The saved room keeps, in order, exactly the member entries that
    are not the caller's and keeps its other fields; it has no entry of the
    caller left; when the caller was not a member the member list is the
    one it was.  The other rooms, the messages and the other users are
    untouched, and the room reference is gone from the caller's [User]
    record. *)
Theorem leave_room_effect now userId roomId s r :
  rooms s !! roomId = Some r → roomValid r = true →
  let out := postLeave now userId roomId s in
  out.1 = mkResponse 200 (Msg "Vous avez quitté la salle avec succès")
  ∧ (∃ r', rooms out.2 !! roomId = Some r'
           ∧ members r' = others userId (members r)
           ∧ (∀ m, m ∈ members r' ↔ m ∈ members r ∧ user m ≠ userId)
           ∧ isMember r' userId = false
           ∧ (isMember r userId = false → members r' = members r)
           ∧ name r' = name r ∧ code r' = code r
           ∧ description r' = description r ∧ creator r' = creator r
           ∧ maxMembers r' = maxMembers r ∧ isPrivate r' = isPrivate r
           ∧ lastActivity r' = now)
  ∧ (∀ j, j ≠ roomId → rooms out.2 !! j = rooms s !! j)
  ∧ messages out.2 = messages s
  ∧ (∀ u, users s !! userId = Some u →
          ∃ u', users out.2 !! userId = Some u'
                ∧ (roomId ∉ userRooms u')
                ∧ ∀ j, j ≠ roomId → (j ∈ userRooms u' ↔ j ∈ userRooms u))
  ∧ (∀ v, v ≠ userId → users out.2 !! v = users s !! v).
Proof.
  intros Hr Hv out. subst out.
  rewrite (postLeave_valid _ _ _ _ _ Hr Hv). cbn [fst snd rooms messages users].
  split; [done|]. split; [|split; [|split; [|split]]].
  - eexists. split; [apply lookup_insert_eq|]. simpl.
    split; [done|]. split; [apply elem_of_others|].
    split.
    { apply isMember_false. simpl. intros m Hin.
      by apply elem_of_others in Hin as [_ ?]. }
    split; [|done].
    intros Hnot. apply others_id. by apply isMember_false.
  - intros j Hj. by rewrite lookup_insert_ne.
  - done.
  - intros u Hu. by apply pullUserRoom_lookup.
  - intros v Hv'. unfold pullUserRoom. by rewrite lookup_alter_ne.
Qed.

Lemma leave_room_effect_witness :
  ∃ r', rooms (postLeave 5000 Sample.bob Sample.roomId Sample.store).2
          !! Sample.roomId = Some r'
        ∧ members r' = [mkMember Sample.alice 1000 admin].
Proof.
  destruct (leave_room_effect 5000 Sample.bob Sample.roomId Sample.store
              Sample.team) as (_ & (r' & Hr' & Hm & _) & _).
  - reflexivity.
  - by vm_compute.
  - exists r'. split; [exact Hr'|]. rewrite Hm. reflexivity.
Defined.

(** A room that fails the validators cannot be left: its save throws. *)
Example leave_invalid_room :
  postLeave 5000 Sample.bob Sample.roomId Demo.cramped
  = (internalError, Demo.cramped).
Proof. vm_compute. reflexivity. Qed.

End Leave.

(** ** Who may read, send, edit and delete *)

Section Access.
Context `{platform : !Platform}.
Import MessageRoutes.

(** C2, as amended.  For a room of the store and a caller who is not one of
    its members, listing the messages of the room is answered 403, and so
    is sending a valid message into it; a send never succeeds and never
    changes the store.  Marking a message as read looks at no room: for
    every caller and every message of the store it is never answered 403,
    and it is answered 200 when the content of the message passes the
    validators of its schema, as all content saved by the routes does. *)
Theorem non_member_is_refused now s :
  (∀ userId roomId r,
      rooms s !! roomId = Some r → isMember r userId = false →
      (∀ q, getRoomMessages userId roomId q s
            = mkResponse 403 (Msg "Accès refusé"))
      ∧ (∀ b, body_roomId b ≫= castObjectId = Some roomId →
              (sendMessageSchema b = None →
               postSend now userId b s
               = (mkResponse 403 (Msg "Accès refusé"), s))
              ∧ status (postSend now userId b s).1 ≠ 201
              ∧ (postSend now userId b s).2 = s))
  ∧ (∀ userId messageId m,
        messages s !! messageId = Some m →
        status (postRead now userId messageId s).1 ≠ 403
        ∧ (contentValid (content m) = true →
           (postRead now userId messageId s).1
           = mkResponse 200 (Msg "Message marqué comme lu"))).
Proof.
  split.
  - intros userId roomId r Hr Hm. split.
    + intros q. unfold getRoomMessages. by rewrite Hr, Hm.
    + intros b Hb. unfold postSend. rewrite Hb, Hr, Hm. cbn [negb].
      by destruct (sendMessageSchema b).
  - intros userId messageId m Hmsg. unfold postRead. rewrite Hmsg.
    cbn [content addReceipt].
    destruct (alreadyRead userId m); cbn [negb]; [done|].
    destruct (contentValid (content m)); done.
Qed.

End Access.

Section AccessExamples.
Import MessageRoutes.

Lemma non_member_is_refused_witness :
  getRoomMessages Sample.carol Sample.roomId (mkQuery None None) Sample.store
  = mkResponse 403 (Msg "Accès refusé")
  ∧ postSend 5000 Sample.carol Demo.hello Sample.store
    = (mkResponse 403 (Msg "Accès refusé"), Sample.store)
  ∧ (postRead 5000 Sample.carol Sample.messageId Sample.store).1
    = mkResponse 200 (Msg "Message marqué comme lu").
Proof.
  destruct (non_member_is_refused 5000 Sample.store) as [Hroom Hread].
  destruct (Hroom Sample.carol Sample.roomId Sample.team)
    as (Hlist & Hsend); [reflexivity..|].
  split; [apply Hlist|]. split.
  - apply (Hsend Demo.hello); by vm_compute.
  - apply (Hread Sample.carol Sample.messageId Sample.hi); by vm_compute.
Defined.

(** C2, as stated, fails for marking as read: Carol is not a member of the
    room, the message is in the room, and her request is answered 200, not
    403, and adds her read receipt to the message. *)
Lemma non_member_marks_read :
  rooms Sample.store !! Sample.roomId = Some Sample.team
  ∧ isMember Sample.team Sample.carol = false
  ∧ messages Sample.store !! Sample.messageId = Some Sample.hi
  ∧ room Sample.hi = Sample.roomId
  ∧ status (postRead 5000 Sample.carol Sample.messageId Sample.store).1 = 200
  ∧ status (postRead 5000 Sample.carol Sample.messageId Sample.store).1 ≠ 403
  ∧ readBy <$> messages (postRead 5000 Sample.carol Sample.messageId
                           Sample.store).2 !! Sample.messageId
    = Some [mkRead Sample.carol 5000].
Proof. vm_compute. repeat split; discriminate. Qed.

End AccessExamples.

Section Senders.
Import MessageRoutes.

(** The test of the route on the content of an edit. *)
Lemma putMessage_blank_test c :
  JS.falsy (Some c) || (JS.len (JS.trim c) =? 0) = negb (JS.hasNonSpace c).
Proof.
  rewrite len_zero.
  destruct (JS.hasNonSpace c) eqn:Hc.
  - apply trim_nonempty in Hc as Hc'.
    rewrite (bool_decide_eq_false_2 _ Hc'). by destruct c.
  - assert (JS.trim c = []) as ->.
    { destruct (decide (JS.trim c = [])) as [|Hne]; [done|].
      apply trim_nonempty in Hne. congruence. }
    by rewrite orb_true_r.
Qed.

(** C6.  For a message of the store and a caller who is not its sender, an
    edit with content that is not blank and a delete are both answered 403
    and leave the store, hence the message, as it was; nothing of the
    message but its sender is looked at. *)
Theorem non_sender_is_refused now userId messageId c s m :
  messages s !! messageId = Some m → sender m ≠ userId →
  JS.hasNonSpace c = true →
  putMessage now userId messageId (Some c) s
  = (mkResponse 403 (Msg "Vous ne pouvez modifier que vos propres messages"),
     s)
  ∧ deleteMessage userId messageId s
    = (mkResponse 403
         (Msg "Vous ne pouvez supprimer que vos propres messages"), s)
  ∧ messages (putMessage now userId messageId (Some c) s).2 !! messageId
    = Some m
  ∧ messages (deleteMessage userId messageId s).2 !! messageId = Some m.
Proof.
  intros Hmsg Hs Hc.
  assert (Hput : putMessage now userId messageId (Some c) s
                 = (mkResponse 403
                      (Msg "Vous ne pouvez modifier que vos propres messages"),
                    s)).
  { unfold putMessage. rewrite putMessage_blank_test, Hc. cbn [negb].
    by rewrite Hmsg, (bool_decide_eq_false_2 _ Hs). }
  assert (Hdel : deleteMessage userId messageId s
                 = (mkResponse 403
                      (Msg "Vous ne pouvez supprimer que vos propres messages"),
                    s)).
  { unfold deleteMessage. by rewrite Hmsg, (bool_decide_eq_false_2 _ Hs). }
  by rewrite Hput, Hdel.
Qed.

Lemma non_sender_is_refused_witness :
  putMessage 5000 Sample.bob Sample.messageId (Some (utf16 "hi!")) Sample.store
  = (mkResponse 403 (Msg "Vous ne pouvez modifier que vos propres messages"),
     Sample.store)
  ∧ deleteMessage Sample.bob Sample.messageId Sample.store
    = (mkResponse 403
         (Msg "Vous ne pouvez supprimer que vos propres messages"),
       Sample.store).
Proof.
  destruct (non_sender_is_refused 5000 Sample.bob Sample.messageId
              (utf16 "hi!") Sample.store Sample.hi) as (Hput & Hdel & _).
  - reflexivity.
  - discriminate.
  - reflexivity.
  - by split.
Defined.

(** Content of no-break spaces is blank to the route: the edit is answered
    400 before the message is looked up, whoever the caller is. *)
Example edit_no_break_space userId messageId s :
  putMessage 5000 userId messageId (Some [160; 160]%N) s
  = (mkResponse 400 (Msg "Le contenu du message est requis"), s).
Proof. reflexivity. Qed.

(** C10.  The route of an edit checks only that the content is not blank:
    content with a code unit that is not white space is never answered
    400, however long it is.  The limit of 1000 is the model's: when the
    sender edits an existing message, trimmed content of at most 1000 code
    units is saved and answered 200, and longer content makes [save] throw,
    which is answered 500 with the store as it was. *)
Theorem edit_length_is_checked_on_save now userId messageId c s :
  JS.hasNonSpace c = true →
  status (putMessage now userId messageId (Some c) s).1 ≠ 400
  ∧ (∀ m, messages s !! messageId = Some m → sender m = userId →
          if JS.len (JS.trim c) <=? 1000 then
            status (putMessage now userId messageId (Some c) s).1 = 200
            ∧ ∃ m', messages (putMessage now userId messageId (Some c) s).2
                      !! messageId = Some m'
                    ∧ content m' = JS.trim c ∧ edited m' = true
                    ∧ editedAt m' = Some now
          else
            putMessage now userId messageId (Some c) s = (internalError, s)).
Proof.
  intros Hc. unfold putMessage.
  rewrite putMessage_blank_test, Hc. cbn [negb].
  apply trim_nonempty in Hc. split.
  - destruct (messages s !! messageId) as [m|]; [|done].
    destruct (negb _); [done|].
    cbn [content editContent]. by destruct (contentValid _).
  - intros m -> Hs. rewrite (bool_decide_eq_true_2 _ Hs). cbn [negb].
    cbn [content editContent]. rewrite trim_idem. unfold contentValid.
    rewrite (bool_decide_eq_false_2 _ Hc). cbn [negb andb].
    destruct (JS.len (JS.trim c) <=? 1000); [|done].
    cbn [fst snd status json messages]. split; [done|].
    eexists. by rewrite lookup_insert_eq.
Qed.

Lemma edit_length_is_checked_on_save_witness :
  status (putMessage 5000 Sample.alice Sample.messageId
            (Some Sample.tooLong) Sample.store).1 ≠ 400
  ∧ putMessage 5000 Sample.alice Sample.messageId (Some Sample.tooLong)
      Sample.store = (internalError, Sample.store).
Proof.
  destruct (edit_length_is_checked_on_save 5000 Sample.alice
              Sample.messageId Sample.tooLong Sample.store) as [H400 Hsave].
  - vm_compute. reflexivity.
  - split; [exact H400|].
    exact (Hsave Sample.hi eq_refl eq_refl).
Defined.

End Senders.

(** ** Read receipts *)

Section ReadReceipts.
Import MessageRoutes.

Lemma alreadyRead_receipts userId m :
  alreadyRead userId m = true ↔ (1 ≤ receiptsOf userId m)%nat.
Proof.
  unfold alreadyRead, receiptsOf.
  induction (readBy m) as [|rd l IH]; simpl.
  - split; [done | lia].
  - rewrite filter_cons. case_bool_decide; simpl.
    + rewrite decide_True by done. simpl. split; [lia | done].
    + rewrite decide_False by done. exact IH.
Qed.

Lemma receiptsOf_push userId m rd :
  length (filter (λ x, reader x = userId) (readBy m ++ [rd]))
  = (receiptsOf userId m + (if decide (reader rd = userId) then 1 else 0))%nat.
Proof.
  unfold receiptsOf. rewrite filter_app, length_app, filter_cons.
  by case_decide.
Qed.

(** A call by a user whose receipt is there changes nothing. *)
Lemma postRead_again now userId messageId s m :
  messages s !! messageId = Some m → alreadyRead userId m = true →
  postRead now userId messageId s
  = (mkResponse 200 (Msg "Message marqué comme lu"), s).
Proof.
  intros Hm Hr. unfold postRead. by rewrite Hm, Hr.
Qed.

(** After a call on a message with valid content the receipt is there,
    once when it was there at most once. *)
Lemma postRead_first now userId messageId s m :
  messages s !! messageId = Some m → (receiptsOf userId m ≤ 1)%nat →
  contentValid (content m) = true →
  (postRead now userId messageId s).1
  = mkResponse 200 (Msg "Message marqué comme lu")
  ∧ ∃ m1, messages (postRead now userId messageId s).2 !! messageId = Some m1
          ∧ receiptsOf userId m1 = 1%nat
          ∧ alreadyRead userId m1 = true.
Proof.
  intros Hm Hle Hcv. unfold postRead. rewrite Hm.
  cbn [content addReceipt]. rewrite Hcv.
  destruct (alreadyRead userId m) eqn:Hr; cbn [negb fst snd messages].
  - split; [done|]. exists m. split; [done|].
    apply alreadyRead_receipts in Hr as Hge. split; [lia | done].
  - split; [done|]. eexists. split; [apply lookup_insert_eq|].
    assert (receiptsOf userId m = 0%nat) as H0.
    { destruct (receiptsOf userId m) eqn:E; [done|].
      assert (alreadyRead userId m = true)
        by (apply alreadyRead_receipts; lia).
      congruence. }
    assert (Hone : receiptsOf userId (addReceipt now userId m) = 1%nat).
    { unfold receiptsOf at 1. simpl readBy.
      rewrite receiptsOf_push, H0. simpl. by rewrite decide_True. }
    split; [done|]. apply alreadyRead_receipts. lia.
Qed.

Lemma markReadMany_again times userId messageId s m :
  messages s !! messageId = Some m → alreadyRead userId m = true →
  markReadMany times userId messageId s
  = (replicate (length times)
       (mkResponse 200 (Msg "Message marqué comme lu")), s).
Proof.
  intros Hm Hr. induction times as [|t times IH]; simpl; [done|].
  by rewrite (postRead_again t _ _ _ _ Hm Hr), IH.
Qed.

(** C5.  For a message of the store that holds at most one receipt per
    user and content that passes the validators of its schema, as the
    routes keep every message: after one call or more by a user, at any
    instants, the message holds exactly one receipt of that user; every
    call is answered 200; the store after all the calls is the store after
    the first, and a further call leaves it as it is. *)
Theorem markRead_idempotent userId messageId s m t ts :
  messages s !! messageId = Some m → (receiptsOf userId m ≤ 1)%nat →
  contentValid (content m) = true →
  let s1 := (postRead t userId messageId s).2 in
  let out := markReadMany (t :: ts) userId messageId s in
  out.1 = replicate (S (length ts))
            (mkResponse 200 (Msg "Message marqué comme lu"))
  ∧ out.2 = s1
  ∧ (∃ m', messages out.2 !! messageId = Some m'
           ∧ receiptsOf userId m' = 1%nat)
  ∧ (∀ t', postRead t' userId messageId out.2
           = (mkResponse 200 (Msg "Message marqué comme lu"), out.2)).
Proof.
  intros Hm Hle Hcv s1 out. subst s1 out.
  destruct (postRead_first t userId messageId s m Hm Hle Hcv)
    as (Hresp & m1 & Hm1 & Hone & Hread).
  simpl markReadMany.
  destruct (postRead t userId messageId s) as [resp s1] eqn:E.
  simpl in *. subst resp.
  rewrite (markReadMany_again ts _ _ _ _ Hm1 Hread). simpl.
  split; [done|]. split; [done|]. split; [eauto|].
  intros t'. by apply (postRead_again t' _ _ _ m1).
Qed.

Lemma markRead_idempotent_witness :
  (markReadMany [5000; 6000; 7000] Sample.bob Sample.messageId
     Sample.store).2
  = (postRead 5000 Sample.bob Sample.messageId Sample.store).2
  ∧ ∃ m', messages (markReadMany [5000; 6000; 7000] Sample.bob
                      Sample.messageId Sample.store).2
            !! Sample.messageId = Some m'
          ∧ receiptsOf Sample.bob m' = 1%nat.
Proof.
  destruct (markRead_idempotent Sample.bob Sample.messageId Sample.store
              Sample.hi 5000 [6000; 7000]) as (_ & Hs & Hm & _).
  - reflexivity.
  - vm_compute. lia.
  - by vm_compute.
  - by split.
Defined.

End ReadReceipts.

(** ** Sending a message *)

Section Send.
Context `{platform : !Platform}.
Import MessageRoutes.

(** C8.  A send answered 201 has stored, under an id new to the
    collection, a message whose sender is the caller, whose room is the room
    of the request, whose type is the one the body names, [text] when it
    names none, and whose [replyTo] is the id the body names, none when it
    names none; the answer carries the message and, beside it, the stored
    message it replies to; the room has been saved with [lastActivity] set
    to the instant of the request and its other fields kept; users are
    untouched. *)
Theorem send_creates_message now userId b s resp s' :
  postSend now userId b s = (resp, s') → status resp = 201 →
  ∃ roomId r id m c,
    body_roomId b ≫= castObjectId = Some roomId
    ∧ rooms s !! roomId = Some r
    ∧ body_content b = Some c
    ∧ resp = mkResponse 201
               (MsgSent "Message envoyé avec succès" id m
                  (replyTo m ≫= λ i, messages s' !! i))
    ∧ messages s !! id = None
    ∧ messages s' = <[id := m]> (messages s)
    ∧ sender m = userId ∧ room m = roomId ∧ content m = JS.trim c
    ∧ (body_type b = None ∧ type m = text
       ∨ body_type b = Some (typeName (type m)))
    ∧ type m ≠ system
    ∧ match body_replyTo b with
      | None => replyTo m = None
      | Some raw => ∃ i, castObjectId raw = Some i ∧ replyTo m = Some i
      end
    ∧ edited m = false ∧ readBy m = [] ∧ createdAt m = now
    ∧ rooms s' = <[roomId := preSave now (touch now r)]> (rooms s)
    ∧ lastActivity (preSave now (touch now r)) = now
    ∧ members (preSave now (touch now r)) = members r
    ∧ code (preSave now (touch now r)) = code r
    ∧ name (preSave now (touch now r)) = name r
    ∧ users s' = users s.
Proof.
  unfold postSend. intros H H201.
  destruct (sendMessageSchema b) eqn:Hv; [by simplify_eq|].
  destruct (sendMessageSchema_type b Hv) as (ty & Hty & Hns & Hname).
  rewrite Hty, (sendMessageSchema_replyTo b Hv) in H.
  destruct (body_roomId b ≫= castObjectId) as [roomId|]; [|by simplify_eq].
  destruct (rooms s !! roomId) as [r|] eqn:Hr; [|by simplify_eq].
  destruct (isMember r userId); cbn [negb] in H; [|by simplify_eq].
  destruct (body_content b) as [c|]; [|by simplify_eq].
  assert (Hreply : ∃ reply,
             match body_replyTo b with
             | Some raw => Some <$> castObjectId raw
             | None => Some None
             end = Some reply
             ∧ match body_replyTo b with
               | None => reply = None
               | Some raw => ∃ i, castObjectId raw = Some i ∧ reply = Some i
               end).
  { destruct (body_replyTo b) as [raw|]; [|by eexists].
    destruct (castObjectId raw) as [i|];
      [|exfalso; cbn [fmap option_fmap option_map] in H; by simplify_eq].
    exists (Some i). eauto. }
  destruct Hreply as (reply & Hcast & Hreply). rewrite Hcast in H.
  cbn [content] in H.
  destruct (contentValid (JS.trim c)); [|by simplify_eq].
  destruct (roomValid _); [|by simplify_eq].
  simplify_eq. exists roomId, r. eexists _, _, c.
  cbn [sender room content type replyTo edited readBy createdAt
       rooms messages users].
  repeat (split; [try done|]); [|done].
  apply not_elem_of_dom, is_fresh.
Qed.

End Send.

Section SendExamples.
Import MessageRoutes.

(** A picture sent in answer to the message of the sample store. *)
Lemma send_creates_message_witness :
  ∃ id m,
    (postSend 5000 Sample.alice Demo.picture Sample.store).1
    = mkResponse 201
        (MsgSent "Message envoyé avec succès" id m (Some Sample.hi))
    ∧ sender m = Sample.alice ∧ type m = image
    ∧ replyTo m = Some Sample.messageId
    ∧ content m = utf16 "sunset.png"
    ∧ lastActivity <$> rooms (postSend 5000 Sample.alice Demo.picture
                                Sample.store).2 !! Sample.roomId
      = Some 5000.
Proof.
  set (out := postSend 5000 Sample.alice Demo.picture Sample.store).
  destruct (send_creates_message 5000 Sample.alice Demo.picture Sample.store
              out.1 out.2)
    as (roomId & r & id & m & c & Hid & Hr & Hc & Hresp & Hnew & Hmsgs & Hs
        & _ & Hcont & Ht & _ & Hrt & _ & _ & _ & Hrooms & _).
  - apply surjective_pairing.
  - by vm_compute.
  - assert (roomId = Sample.roomId) as -> by (vm_compute in Hid; by injection Hid as <-).
    assert (c = utf16 "sunset.png") as -> by (vm_compute in Hc; by injection Hc as <-).
    destruct Hrt as (i & Hi & Hrt).
    assert (i = Sample.messageId) as -> by (vm_compute in Hi; by injection Hi as <-).
    exists id, m. rewrite Hresp, Hrt, Hmsgs, Hrooms. cbn [mbind option_bind].
    split.
    { rewrite lookup_insert_ne; [reflexivity|].
      intros Heq. rewrite Heq in Hnew. vm_compute in Hnew. discriminate Hnew. }
    split; [exact Hs|]. split.
    { destruct Ht as [[Ht _]|Ht]; [vm_compute in Ht; discriminate Ht|].
      destruct (type m); vm_compute in Ht;
        first [reflexivity|discriminate Ht]. }
    split; [reflexivity|]. split.
    { rewrite Hcont. vm_compute. reflexivity. }
    rewrite lookup_insert_eq. reflexivity.
Defined.

(** A message saved beside a room that fails the validators: the message
    stays, the answer is 500. *)
Example send_into_invalid_room :
  status (postSend 5000 Sample.alice Demo.hello Demo.cramped).1 = 500
  ∧ rooms (postSend 5000 Sample.alice Demo.hello Demo.cramped).2
    = rooms Demo.cramped
  ∧ content <$> messages (postSend 5000 Sample.alice Demo.hello
                            Demo.cramped).2
                  !! fresh (dom (messages Demo.cramped))
    = Some (utf16 "hello").
Proof. repeat split; vm_compute; reflexivity. Qed.

(** A [replyTo] that names no [ObjectId] fails the cast on [save]. *)
Example send_reply_to_nothing :
  postSend 5000 Sample.alice
    (mkSendBody (Some (utf16 "hello")) (Some (utf16 Sample.roomId)) None
                (Some (utf16 "abc"))) Sample.store
  = (internalError, Sample.store).
Proof. by vm_compute. Qed.

End SendExamples.

(** ** Listing the messages of a room *)

Section Listing.
Import MessageRoutes.

#[local] Instance newerFirst_trans : Transitive newerFirst.
Proof. intros a b c. unfold newerFirst. lia. Qed.

#[local] Instance newerFirst_total : Total newerFirst.
Proof. intros a b. unfold newerFirst. lia. Qed.

#[local] Instance chronological_trans : Transitive chronological.
Proof. intros a b c. unfold chronological. lia. Qed.

Lemma roomMessages_elem roomId s i m :
  (i, m) ∈ roomMessages roomId s ↔ messages s !! i = Some m ∧ room m = roomId.
Proof.
  unfold roomMessages. rewrite list_elem_of_filter, elem_of_map_to_list.
  simpl. tauto.
Qed.

Lemma roomMessages_NoDup roomId s : NoDup (roomMessages roomId s).*1.
Proof.
  eapply sublist_NoDup; [apply (NoDup_fst_map_to_list (messages s))|].
  apply fmap_sublist, sublist_filter.
Qed.

(** The messages of a room from the newest to the oldest: each message of
    the room once, and no other. *)
Lemma newestFirst_spec roomId s :
  let newestFirst := merge_sort newerFirst (roomMessages roomId s) in
  NoDup newestFirst.*1
  ∧ (∀ i m, (i, m) ∈ newestFirst
            ↔ messages s !! i = Some m ∧ room m = roomId)
  ∧ StronglySorted newerFirst newestFirst
  ∧ Z.of_nat (length newestFirst) = countDocuments roomId s.
Proof.
  intros newestFirst.
  assert (Hperm : newestFirst ≡ₚ roomMessages roomId s)
    by apply merge_sort_Permutation.
  split; [|split; [|split]].
  - rewrite Hperm. apply roomMessages_NoDup.
  - intros i m. rewrite Hperm. apply roomMessages_elem.
  - apply StronglySorted_merge_sort; apply _.
  - unfold countDocuments. by rewrite Hperm.
Qed.

(** A slice of a list sorted newest first, reversed, is in chronological
    order. *)
Lemma page_chronological (l : list (ObjectId * Message)) n k :
  StronglySorted newerFirst l →
  StronglySorted chronological (reverse (take n (drop k l))).
Proof.
  intros Hl.
  assert (Hslice : StronglySorted newerFirst (take n (drop k l))).
  { rewrite <- (take_drop k l) in Hl.
    apply StronglySorted_app_1_r in Hl.
    rewrite <- (take_drop n (drop k l)) in Hl.
    by apply StronglySorted_app_1_l in Hl. }
  apply Sorted_StronglySorted; [apply _|].
  apply StronglySorted_Sorted in Hslice.
  exact (Sorted_reverse newerFirst _ Hslice).
Qed.

Lemma page_length (l : list (ObjectId * Message)) (limit skip : Z) :
  0 ≤ skip → 0 ≤ limit →
  Z.of_nat (length (reverse (take (Z.to_nat limit) (drop (Z.to_nat skip) l))))
  = Z.min limit (Z.max 0 (Z.of_nat (length l) - skip)).
Proof.
  intros Hs Hl. rewrite length_reverse, length_take, length_drop. lia.
Qed.

Lemma ceilDiv_unique a b q :
  0 < b → b * (q - 1) < a ≤ b * q → JS.ceilDiv a b = q.
Proof.
  intros Hb Hq. pose proof (ceilDiv_spec a b Hb). nia.
Qed.

(** The answer to a member who asks for a page and a limit of at least
    one. *)
Lemma getRoomMessages_member userId roomId r q s :
  rooms s !! roomId = Some r → isMember r userId = true →
  let page := JS.orNum (query_page q) 1 in
  let limit := JS.orNum (query_limit q) 50 in
  1 ≤ page → 1 ≤ limit →
  let skip := (page - 1) * limit in
  let total := countDocuments roomId s in
  let msgs :=
    reverse (take (Z.to_nat limit)
               (drop (Z.to_nat skip)
                  (merge_sort newerFirst (roomMessages roomId s)))) in
  getRoomMessages userId roomId q s
  = mkResponse 200
      (Page msgs ((λ im, populateReply (messages s) im.2) <$> msgs)
         (mkPagination page (JS.ceilDiv total limit) total
            (skip + Z.of_nat (length msgs) <? total)))
  ∧ Z.of_nat (length msgs) = Z.min limit (Z.max 0 (total - skip)).
Proof.
  intros Hr Hm page limit Hpage Hlimit skip total msgs.
  assert (Hskip : 0 ≤ skip) by (subst skip; nia).
  split.
  - unfold getRoomMessages. fold page limit skip. rewrite Hr, Hm. simpl negb.
    cbv iota. unfold findPage.
    assert ((skip <? 0) = false) as -> by lia.
    rewrite Z.abs_eq by lia.
    subst msgs. by rewrite length_reverse.
  - subst msgs total. unfold countDocuments.
    rewrite <- (Permutation_length
                  (merge_sort_Permutation newerFirst (roomMessages roomId s))).
    apply page_length; lia.
Qed.

(** C4, as amended.  For a member of the room and a page and limit of at
    least one, the answer is 200 with the page of the newest-first ordering
    of the messages of the room, reversed: with [newestFirst] the list that
    holds each message of the room once, and no other message, from the
    newest to the oldest, the answer holds the [limit] messages that follow
    the first [(page - 1) * limit] of [newestFirst], in chronological order,
    each with the stored message it replies to; [totalPages] is the ceiling
    of total over limit; [hasMore] tells whether the offset
    [(page - 1) * limit] plus the number of messages returned is below the
    total, that is, whether [page * limit] is.  With five messages, page 1
    and limit 2 that is two messages, three pages and [hasMore] true. *)
Theorem list_messages_page userId roomId r q s :
  rooms s !! roomId = Some r → isMember r userId = true →
  let page := JS.orNum (query_page q) 1 in
  let limit := JS.orNum (query_limit q) 50 in
  1 ≤ page → 1 ≤ limit →
  let skip := (page - 1) * limit in
  ∃ newestFirst,
    NoDup newestFirst.*1
    ∧ (∀ i m, (i, m) ∈ newestFirst
              ↔ messages s !! i = Some m ∧ room m = roomId)
    ∧ StronglySorted newerFirst newestFirst
    ∧ let total := Z.of_nat (length newestFirst) in
      let msgs :=
        reverse (take (Z.to_nat limit) (drop (Z.to_nat skip) newestFirst)) in
      let returned := Z.of_nat (length msgs) in
      getRoomMessages userId roomId q s
      = mkResponse 200
          (Page msgs
             ((λ im, replyTo im.2 ≫= λ i, messages s !! i) <$> msgs)
             (mkPagination page (JS.ceilDiv total limit) total
                (skip + returned <? total)))
      ∧ StronglySorted chronological msgs
      ∧ limit * (JS.ceilDiv total limit - 1) < total
        ∧ total ≤ limit * JS.ceilDiv total limit
      ∧ returned = Z.min limit (Z.max 0 (total - skip))
      ∧ ((skip + returned <? total) = true ↔ page * limit < total)
      ∧ (total = 5 → page = 1 → limit = 2 →
         returned = 2 ∧ JS.ceilDiv total limit = 3
         ∧ (skip + returned <? total) = true).
Proof.
  intros Hr Hm page limit Hpage Hlimit skip.
  destruct (getRoomMessages_member userId roomId r q s Hr Hm Hpage Hlimit)
    as [Hresp Hret].
  destruct (newestFirst_spec roomId s) as (Hnd & Hin & Hsorted & Hcount).
  fold page limit skip in Hresp, Hret.
  exists (merge_sort newerFirst (roomMessages roomId s)).
  split; [done|]. split; [done|]. split; [done|].
  intros total msgs returned.
  assert (Htotal : total = countDocuments roomId s) by done.
  rewrite <- Htotal in Hresp, Hret. fold msgs returned in Hresp, Hret.
  split; [done|].
  split; [by apply page_chronological|].
  split; [apply ceilDiv_spec; lia|].
  split; [apply ceilDiv_spec; lia|].
  split; [done|]. split.
  - rewrite Hret, Z.ltb_lt. subst skip. nia.
  - intros H5 H1 H2. rewrite Hret. subst skip. rewrite H5, H1, H2.
    repeat split; try done; apply ceilDiv_unique; lia.
Qed.

(** The request of the specification on a room with five messages, in a
    store that holds a newer message of another room. *)
Lemma list_messages_page_witness :
  getRoomMessages Sample.alice Sample.roomId
    (mkQuery (Some 1) (Some 2)) Sample.busy
  = mkResponse 200
      (Page [Sample.note "14" 40 (Some (Sample.noteId "11"));
             Sample.note "15" 50 None]
            [Some (Sample.note "11" 10 None).2; None]
            (mkPagination 1 3 5 true))
  ∧ ∃ newestFirst,
      (∀ i m, (i, m) ∈ newestFirst
              ↔ messages Sample.busy !! i = Some m ∧ room m = Sample.roomId)
      ∧ Z.of_nat (length newestFirst) = 5.
Proof.
  assert (Hget : getRoomMessages Sample.alice Sample.roomId
                   (mkQuery (Some 1) (Some 2)) Sample.busy
                 = mkResponse 200
                     (Page [Sample.note "14" 40 (Some (Sample.noteId "11"));
                            Sample.note "15" 50 None]
                           [Some (Sample.note "11" 10 None).2; None]
                           (mkPagination 1 3 5 true)))
    by (vm_compute; reflexivity).
  split; [exact Hget|].
  destruct (list_messages_page Sample.alice Sample.roomId Sample.team
              (mkQuery (Some 1) (Some 2)) Sample.busy)
    as (newestFirst & _ & Hin & _ & Hresp & _).
  - reflexivity.
  - reflexivity.
  - simpl. lia.
  - simpl. lia.
  - exists newestFirst. split; [exact Hin|].
    rewrite Hget in Hresp. by injection Hresp as _ _ _ Htotal _.
Defined.

(** C4, as stated, fails in two ways.  The offset that [hasMore] counts
    from is that of the first message of the page, [(page - 1) * limit],
    not [page * limit]: with five messages, page 2 and limit 2 the answer
    holds two messages and says that more remain, while
    [2 * 2 + 2 < 5] does not hold.  And not every call of a member is
    answered with a page: page -1 makes the offset negative, the query is
    refused and the answer is 500. *)
Lemma list_messages_offset :
  rooms Sample.busy !! Sample.roomId = Some Sample.team
  ∧ isMember Sample.team Sample.alice = true
  ∧ getRoomMessages Sample.alice Sample.roomId
      (mkQuery (Some 2) (Some 2)) Sample.busy
    = mkResponse 200
        (Page [Sample.note "12" 20 None; Sample.note "13" 30 None]
              [None; None]
              (mkPagination 2 3 5 true))
  ∧ (2 * 2 + 2 <? 5) = false
  ∧ getRoomMessages Sample.alice Sample.roomId
      (mkQuery (Some (-1)) (Some 2)) Sample.busy
    = internalError.
Proof. repeat split; vm_compute; reflexivity. Qed.

End Listing.

(** ** What every request keeps *)

Section Steps.
Context `{platform : !Platform}.
Import RoomRoutes MessageRoutes.

(** X1.  A request answered with an error status, 400 or above, leaves the
    rooms and the user records exactly as they were and removes or changes
    no message; it leaves the whole store as it was when the status is
    below 500, and also when every room of the store passes the validators
    of the room schema.  (What is left is the send whose message is saved
    before the save of an invalid room fails.) *)
Theorem errors_change_nothing now userId req s resp s' :
  handle now userId req s = Some (resp, s') → 400 ≤ status resp →
  rooms s' = rooms s ∧ users s' = users s
  ∧ (∀ i m, messages s !! i = Some m → messages s' !! i = Some m)
  ∧ (status resp < 500 ∨ roomsValid s → s' = s).
Proof. intros H. apply handle_effect in H. by eapply Effect_error. Qed.

(** X2.  No request lets a room exceed its capacity by a whole member: if
    every room of the store holds less than [maxMembers + 1] members, so
    does every room afterwards; and a room whose [maxMembers] is a whole
    number then holds at most [maxMembers] members. *)
Theorem capacity_is_kept now userId req s resp s' :
  handle now userId req s = Some (resp, s') →
  withinCapacity s →
  withinCapacity s'
  ∧ ∀ i r k, rooms s' !! i = Some r → maxMembers r = Qc_of_Z k →
             Z.of_nat (length (members r)) ≤ k.
Proof.
  intros H Hinv. apply handle_effect in H.
  assert (Hinv' : withinCapacity s') by by eapply Effect_capacity.
  split; [done|]. intros i r k Hi Hk.
  specialize (Hinv' _ _ Hi). rewrite Hk in Hinv'.
  rewrite <- Z2Qc_inj_1, <- Z2Qc_inj_add in Hinv'.
  apply Z2Qc_inj_lt in Hinv'. lia.
Qed.

(** X3.  No request makes a user a member of a room twice: if the member
    lists of the store name every user at most once, so do they
    afterwards. *)
Theorem members_stay_distinct now userId req s resp s' :
  handle now userId req s = Some (resp, s') →
  distinctMembers s → distinctMembers s'.
Proof. intros H. apply handle_effect in H. by eapply Effect_distinct. Qed.

(** X4.  Every room a request stores or stores again passes the validators
    of the room schema: a name that is not empty and of at most 50
    characters, a code of 4 to 8 characters, a description of at most 200
    characters, [maxMembers] between 2 and 100. *)
Theorem rooms_stay_valid now userId req s resp s' :
  handle now userId req s = Some (resp, s') →
  roomsValid s → roomsValid s'.
Proof. intros H. apply handle_effect in H. by eapply Effect_roomsValid. Qed.

(** X5.  No request removes a room or changes its name, code, description,
    creator, capacity or privacy; and no request changes the membership of
    anyone but the caller: the entries of the other users stay, in order. *)
Theorem rooms_persist now userId req s resp s' i r :
  handle now userId req s = Some (resp, s') → rooms s !! i = Some r →
  ∃ r', rooms s' !! i = Some r'
        ∧ name r' = name r ∧ code r' = code r
        ∧ description r' = description r ∧ creator r' = creator r
        ∧ maxMembers r' = maxMembers r ∧ isPrivate r' = isPrivate r
        ∧ others userId (members r') = others userId (members r)
        ∧ ∀ v, v ≠ userId → isMember r' v = isMember r v.
Proof.
  intros H Hi. apply handle_effect in H.
  destruct (Effect_room _ _ _ _ _ _ _ H Hi)
    as (r' & Hr' & ? & ? & ? & ? & ? & ? & ? & Ho).
  exists r'. repeat split; try done.
  intros v Hv. by apply (isMember_others _ _ userId).
Qed.

(** X6.  A room that a request adds to the store was created by the caller:
    the request is answered 201, the caller is the creator and the only
    member, with the role admin, and the code is in upper case. *)
Theorem new_rooms_belong_to_the_caller now userId req s resp s' i r' :
  handle now userId req s = Some (resp, s') →
  rooms s !! i = None → rooms s' !! i = Some r' →
  status resp = 201 ∧ creator r' = userId
  ∧ members r' = [mkMember userId now admin]
  ∧ toUpperCase (code r') = code r'.
Proof.
  intros H Hi Hi'. apply handle_effect in H.
  destruct (Effect_new_room _ _ _ _ _ _ _ H Hi Hi') as (? & ? & ? & _ & ?).
  done.
Qed.

(** X7.  A request writes no user record but the caller's, and adds or
    removes none. *)
Theorem other_users_are_untouched now userId req s resp s' :
  handle now userId req s = Some (resp, s') →
  (∀ v, v ≠ userId → users s' !! v = users s !! v)
  ∧ (∀ v, is_Some (users s' !! v) ↔ is_Some (users s !! v)).
Proof. intros H. apply handle_effect in H. by eapply Effect_users. Qed.

(** X8.  The room references of the user records stay sound: if every
    reference of every user record is a room of the store with that user
    among its members, the same holds after any request. *)
Theorem user_rooms_stay_sound now userId req s resp s' :
  handle now userId req s = Some (resp, s') →
  userRoomsSound s → userRoomsSound s'.
Proof. intros H. apply handle_effect in H. by eapply Effect_userRoomsSound. Qed.

(** X9.  A message that is in the store before and after a request keeps
    its sender, room, type, [replyTo] and creation date; an edited message
    stays marked as edited; and read receipts are only added at the end,
    never removed or changed. *)
Theorem messages_keep_identity now userId req s resp s' i m m' :
  handle now userId req s = Some (resp, s') →
  messages s !! i = Some m → messages s' !! i = Some m' →
  sender m' = sender m ∧ room m' = room m ∧ type m' = type m
  ∧ replyTo m' = replyTo m ∧ createdAt m' = createdAt m
  ∧ (edited m = true → edited m' = true)
  ∧ readBy m `prefix_of` readBy m'.
Proof.
  intros H Hi Hi'. apply handle_effect in H.
  destruct (Effect_message _ _ _ _ _ _ _ _ H Hi Hi')
    as (? & ? & ? & ? & ? & ? & ? & _).
  done.
Qed.

(** X10.  Only its sender changes the content of a message or removes it:
    when a message of the store is gone after a request, or is there with
    other content, the caller is the sender of the message. *)
Theorem only_the_sender_alters now userId req s resp s' i m :
  handle now userId req s = Some (resp, s') →
  messages s !! i = Some m →
  (messages s' !! i = None
   ∨ ∃ m', messages s' !! i = Some m' ∧ content m' ≠ content m) →
  sender m = userId.
Proof.
  intros H Hi Hcase. apply handle_effect in H.
  destruct Hcase as [Hgone|(m' & Hi' & Hc)].
  - by eapply Effect_message_gone.
  - by eapply Effect_message.
Qed.

(** X11.  A message that a request adds to the store was sent by the
    caller, a member of the room of the message: the sender is the caller,
    the type is not [system], the message is neither edited nor read by
    anyone, and its content passes the validators of the message schema.
    The request is answered 201 when the room passes the validators of its
    schema; when it does not, the save of the room fails after the message
    was saved, the request is answered 500 and the rooms stay as they
    were. *)
Theorem new_messages_come_from_members now userId req s resp s' i m' :
  handle now userId req s = Some (resp, s') →
  messages s !! i = None → messages s' !! i = Some m' →
  (status resp = 201 ∨ status resp = 500 ∧ rooms s' = rooms s)
  ∧ sender m' = userId ∧ type m' ≠ system
  ∧ edited m' = false ∧ readBy m' = [] ∧ createdAt m' = now
  ∧ contentValid (content m') = true
  ∧ ∃ r, rooms s !! room m' = Some r ∧ isMember r userId = true
         ∧ (status resp = 201 ↔ roomValid r = true).
Proof.
  intros H Hi Hi'. apply handle_effect in H. by eapply Effect_new_message.
Qed.

(** X12.  The content of every stored message stays trimmed, not empty and
    of at most 1000 characters: if that holds of the store, it holds after
    any request. *)
Theorem contents_stay_valid now userId req s resp s' :
  handle now userId req s = Some (resp, s') →
  contentsValid s → contentsValid s'.
Proof. intros H. apply handle_effect in H. by eapply Effect_contentsValid. Qed.

(** X29.  The members of the rooms keep their [User] records: when the
    caller has a record and every member of every room of the store has one,
    every member of every room has one after the request. *)
Theorem members_stay_known now userId req s resp s' :
  handle now userId req s = Some (resp, s') →
  is_Some (users s !! userId) →
  (∀ i r, rooms s !! i = Some r → membersKnown s r) →
  ∀ i r, rooms s' !! i = Some r → membersKnown s' r.
Proof. intros H. apply handle_effect in H. by eapply Effect_membersKnown. Qed.

End Steps.

Section StepExamples.
Import RoomRoutes MessageRoutes.

Lemma errors_change_nothing_witness :
  (postJoin 5000 Sample.carol (Some (utf16 "team")) Sample.store).2
  = Sample.store.
Proof.
  destruct (errors_change_nothing 5000 Sample.carol
              (JoinRoom (Some (utf16 "team"))) Sample.store
              (postJoin 5000 Sample.carol (Some (utf16 "team")) Sample.store).1
              (postJoin 5000 Sample.carol (Some (utf16 "team")) Sample.store).2)
    as (_ & _ & _ & Hsame).
  - by apply handle_pair.
  - by vm_compute.
  - apply Hsame. left. by vm_compute.
Defined.

Lemma capacity_is_kept_witness :
  withinCapacity (postLeave 5000 Sample.bob Sample.roomId Sample.store).2.
Proof.
  apply (capacity_is_kept 5000 Sample.bob (LeaveRoom Sample.roomId)
           Sample.store
           (postLeave 5000 Sample.bob Sample.roomId Sample.store).1).
  - by apply handle_pair.
  - apply sample_withinCapacity.
Defined.

(** A capacity need not be whole: the room of two members with a capacity
    of two and a half takes a third. *)
Example join_fractional_capacity :
  (length ∘ members) <$>
    rooms (postJoin 5000 Sample.carol (Some (utf16 "team")) Demo.fraction).2
      !! Sample.roomId
  = Some 3%nat.
Proof. by vm_compute. Qed.

Lemma members_stay_distinct_witness :
  distinctMembers (postLeave 5000 Sample.bob Sample.roomId Sample.store).2.
Proof.
  apply (members_stay_distinct 5000 Sample.bob (LeaveRoom Sample.roomId)
           Sample.store
           (postLeave 5000 Sample.bob Sample.roomId Sample.store).1).
  - by apply handle_pair.
  - apply sample_distinctMembers.
Defined.

Lemma rooms_stay_valid_witness :
  roomsValid (postSend 5000 Sample.alice Demo.hello Sample.store).2.
Proof.
  apply (rooms_stay_valid 5000 Sample.alice (SendMessage Demo.hello)
           Sample.store
           (postSend 5000 Sample.alice Demo.hello Sample.store).1).
  - by apply handle_pair.
  - apply sample_roomsValid.
Defined.

Lemma rooms_persist_witness :
  ∃ r', rooms (postLeave 5000 Sample.bob Sample.roomId Sample.store).2
          !! Sample.roomId = Some r'
        ∧ code r' = utf16 "TEAM" ∧ isMember r' Sample.alice = true.
Proof.
  destruct (rooms_persist 5000 Sample.bob (LeaveRoom Sample.roomId)
              Sample.store
              (postLeave 5000 Sample.bob Sample.roomId Sample.store).1
              (postLeave 5000 Sample.bob Sample.roomId Sample.store).2
              Sample.roomId Sample.team)
    as (r' & Hr' & _ & Hc & _ & _ & _ & _ & _ & Hm).
  - by apply handle_pair.
  - reflexivity.
  - exists r'. split; [exact Hr'|]. split; [exact Hc|].
    rewrite Hm; [reflexivity | discriminate].
Defined.

Lemma new_rooms_belong_to_the_caller_witness :
  creator (newRoom 5000 Sample.carol (utf16 " Dev ") (utf16 "DEVS") Demo.devs)
  = Sample.carol
  ∧ members (newRoom 5000 Sample.carol (utf16 " Dev ") (utf16 "DEVS")
               Demo.devs)
    = [mkMember Sample.carol 5000 admin].
Proof.
  set (id := fresh (dom (rooms Sample.store))).
  set (r := newRoom 5000 Sample.carol (utf16 " Dev ") (utf16 "DEVS")
              Demo.devs).
  destruct (new_rooms_belong_to_the_caller 5000 Sample.carol
              (CreateRoom [] Demo.devs) Sample.store
              (mkResponse 201 (MsgRoom "Salle créée avec succès" id r))
              (mkStore (<[id := r]> (rooms Sample.store))
                       (messages Sample.store)
                       (pushUserRoom Sample.carol id (users Sample.store)))
              id r) as (_ & Hc & Hm & _).
  - vm_compute. reflexivity.
  - vm_compute. reflexivity.
  - apply lookup_insert_eq.
  - by split.
Defined.

Lemma other_users_are_untouched_witness :
  users (postLeave 5000 Sample.bob Sample.roomId Sample.store).2
    !! Sample.alice = Some (mkUser [Sample.roomId]).
Proof.
  destruct (other_users_are_untouched 5000 Sample.bob
              (LeaveRoom Sample.roomId) Sample.store
              (postLeave 5000 Sample.bob Sample.roomId Sample.store).1
              (postLeave 5000 Sample.bob Sample.roomId Sample.store).2)
    as [Hsame _].
  - by apply handle_pair.
  - rewrite Hsame; [reflexivity | discriminate].
Defined.

Lemma user_rooms_stay_sound_witness :
  userRoomsSound (postLeave 5000 Sample.bob Sample.roomId Sample.store).2.
Proof.
  apply (user_rooms_stay_sound 5000 Sample.bob (LeaveRoom Sample.roomId)
           Sample.store
           (postLeave 5000 Sample.bob Sample.roomId Sample.store).1).
  - by apply handle_pair.
  - apply sample_userRoomsSound.
Defined.

Lemma messages_keep_identity_witness :
  sender (addReceipt 5000 Sample.bob Sample.hi) = Sample.alice
  ∧ readBy Sample.hi `prefix_of` readBy (addReceipt 5000 Sample.bob Sample.hi).
Proof.
  destruct (messages_keep_identity 5000 Sample.bob
              (MarkRead Sample.messageId) Sample.store
              (mkResponse 200 (Msg "Message marqué comme lu"))
              (mkStore (rooms Sample.store)
                 (<[Sample.messageId := addReceipt 5000 Sample.bob Sample.hi]>
                    (messages Sample.store))
                 (users Sample.store))
              Sample.messageId Sample.hi
              (addReceipt 5000 Sample.bob Sample.hi))
    as (Hs & _ & _ & _ & _ & _ & Hp).
  - reflexivity.
  - reflexivity.
  - apply lookup_insert_eq.
  - by split.
Defined.

Lemma only_the_sender_alters_witness : sender Sample.hi = Sample.alice.
Proof.
  apply (only_the_sender_alters 5000 Sample.alice
           (DeleteMessage Sample.messageId) Sample.store
           (mkResponse 200 (Msg "Message supprimé avec succès"))
           (mkStore (rooms Sample.store)
              (delete Sample.messageId (messages Sample.store))
              (users Sample.store))
           Sample.messageId).
  - reflexivity.
  - reflexivity.
  - left. apply lookup_delete_eq.
Defined.

(** The message of a send whose room fails the validators: it is in the
    store, and the answer is 500. *)
Lemma new_messages_come_from_members_witness :
  status (postSend 5000 Sample.alice Demo.hello Demo.cramped).1 = 500
  ∧ ∃ r, rooms Demo.cramped !! Sample.roomId = Some r
         ∧ isMember r Sample.alice = true ∧ roomValid r = false.
Proof.
  set (out := postSend 5000 Sample.alice Demo.hello Demo.cramped).
  set (id := fresh (dom (messages Demo.cramped))).
  set (m := mkMessage (utf16 "hello") Sample.alice Sample.roomId text false
              None [] None 5000).
  assert (H500 : status out.1 = 500) by by vm_compute.
  destruct (new_messages_come_from_members 5000 Sample.alice
              (SendMessage Demo.hello) Demo.cramped out.1 out.2 id m)
    as (_ & _ & _ & _ & _ & _ & _ & r & Hr & Hm & Hst).
  - by apply handle_pair.
  - by vm_compute.
  - by vm_compute.
  - split; [exact H500|]. exists r. split; [exact Hr|]. split; [exact Hm|].
    destruct (roomValid r); [|reflexivity].
    destruct Hst as [_ Hst]. rewrite Hst in H500 by reflexivity.
    discriminate H500.
Defined.

Lemma contents_stay_valid_witness :
  contentsValid
    (putMessage 5000 Sample.alice Sample.messageId (Some (utf16 " hi! "))
       Sample.store).2.
Proof.
  apply (contents_stay_valid 5000 Sample.alice
           (EditMessage Sample.messageId (Some (utf16 " hi! "))) Sample.store
           (putMessage 5000 Sample.alice Sample.messageId
              (Some (utf16 " hi! ")) Sample.store).1).
  - by apply handle_pair.
  - apply sample_contentsValid.
Defined.

Lemma members_stay_known_witness :
  ∃ r, rooms (postJoin 5000 Sample.carol (Some (utf16 "team"))
                Demo.roomy).2 !! Sample.roomId = Some r
       ∧ membersKnown (postJoin 5000 Sample.carol (Some (utf16 "team"))
                         Demo.roomy).2 r
       ∧ isMember r Sample.carol = true.
Proof.
  set (out := postJoin 5000 Sample.carol (Some (utf16 "team")) Demo.roomy).
  assert (Hr : ∃ r, rooms out.2 !! Sample.roomId = Some r
                    ∧ isMember r Sample.carol = true).
  { eexists. split; [vm_compute; reflexivity|]. vm_compute. reflexivity. }
  destruct Hr as (r & Hr & Hm). exists r. split; [exact Hr|].
  split; [|exact Hm].
  apply (members_stay_known 5000 Sample.carol (JoinRoom (Some (utf16 "team")))
           Demo.roomy out.1 out.2) with (i := Sample.roomId).
  - by apply handle_pair.
  - vm_compute. eexists. reflexivity.
  - intros i r0 Hi. simpl in Hi.
    apply lookup_singleton_Some in Hi as [_ <-]. known_by_cases.
  - exact Hr.
Defined.

End StepExamples.

(** ** Creating and joining rooms *)

Section CreateJoin.
Context `{platform : !Platform}.
Import RoomRoutes MessageRoutes.

(** [maxMembers || 50] on a number that passed the schema. *)
Lemma orNumber_ok mm :
  Joi.num "maxMembers" 2 100 mm = None →
  JS.orNumber mm (Qc_of_Z 50) = default (Qc_of_Z 50) mm
  ∧ (Qc_of_Z 2 ≤ JS.orNumber mm (Qc_of_Z 50))%Qc
  ∧ (JS.orNumber mm (Qc_of_Z 50) ≤ Qc_of_Z 100)%Qc.
Proof.
  destruct mm as [n|]; simpl.
  - intros [H2 H100]%num_ok.
    rewrite bool_decide_eq_false_2; [done|].
    intros ->. apply Z2Qc_inj_le in H2. lia.
  - intros _. split; [done|].
    split; apply (proj1 (Z2Qc_inj_le _ _)); lia.
Qed.

(** The room built from a body that passed [createRoomSchema] passes the
    validators of [roomSchema] as soon as its name is not blank and its
    code, in upper case, has 4 to 8 code units. *)
Lemma newRoom_valid now userId b n c :
  createRoomSchema b = None → body_name b = Some n → body_code b = Some c →
  JS.hasNonSpace n = true →
  4 ≤ JS.len (toUpperCase c) ≤ 8 →
  roomValid (newRoom now userId n (toUpperCase c) b) = true
  ∧ JS.orNumber (body_maxMembers b) (Qc_of_Z 50)
    = default (Qc_of_Z 50) (body_maxMembers b).
Proof.
  intros Hv Hn Hc Hns Hlen.
  unfold createRoomSchema in Hv. rewrite !first_cons_None in Hv.
  destruct Hv as (Hname & _ & Hdesc & Hmax & _).
  rewrite Hn in Hname. apply str_bounds_ok in Hname.
  destruct (orNumber_ok _ Hmax) as (Hmm & H2 & H100).
  split; [|exact Hmm].
  unfold roomValid, newRoom.
  cbn [name code description maxMembers].
  apply trim_nonempty in Hns.
  rewrite (bool_decide_eq_false_2 _ Hns).
  pose proof (trim_length n).
  rewrite toUpperCase_idem, (str_max_ok _ _ _ _ _ Hdesc).
  rewrite (bool_decide_eq_true_2 _ H2), (bool_decide_eq_true_2 _ H100).
  cbn [negb]. repeat (apply andb_true_intro; split); lia.
Qed.

Lemma postCreate_ok draws now userId b s n c :
  createRoomSchema b = None → body_name b = Some n → body_code b = Some c →
  JS.hasNonSpace n = true →
  4 ≤ JS.len (toUpperCase c) ≤ 8 →
  findOneByCode (toUpperCase c) s = None →
  postCreate draws now userId b s
  = Some (mkResponse 201
            (MsgRoom "Salle créée avec succès" (fresh (dom (rooms s)))
               (newRoom now userId n (toUpperCase c) b)),
          mkStore (<[fresh (dom (rooms s))
                     := newRoom now userId n (toUpperCase c) b]> (rooms s))
                  (messages s)
                  (pushUserRoom userId (fresh (dom (rooms s))) (users s))).
Proof.
  intros Hv Hn Hc Hns Hlen Hfree. unfold postCreate.
  rewrite Hv, (createRoomSchema_code_truthy b Hv), Hc, Hfree, Hn.
  destruct (newRoom_valid now userId b n c Hv Hn Hc Hns Hlen) as [-> _].
  rewrite bool_decide_eq_true_2; [done|].
  cbn [code newRoom]. by rewrite toUpperCase_idem.
Qed.

(** X13.  A create request with a body that passes the schema, a name that
    is not blank and a code that no room carries, case ignored, and that
    has 4 to 8 code units in upper case, is answered 201: the room is
    stored under a new id with the name trimmed, the code in upper case, the
    caller as creator and as only member, an admin, [maxMembers] 50 and
    [isPrivate] false when they are not given; the other rooms and the
    messages stay, and the id is appended to the room references of the
    caller. *)
Theorem create_room_succeeds draws now userId b s n c :
  createRoomSchema b = None → body_name b = Some n → body_code b = Some c →
  JS.hasNonSpace n = true →
  4 ≤ JS.len (toUpperCase c) ≤ 8 →
  findOneByCode (toUpperCase c) s = None →
  ∃ id r,
    postCreate draws now userId b s
    = Some (mkResponse 201 (MsgRoom "Salle créée avec succès" id r),
            mkStore (<[id := r]> (rooms s)) (messages s)
                    (pushUserRoom userId id (users s)))
    ∧ rooms s !! id = None
    ∧ name r = JS.trim n ∧ code r = toUpperCase c
    ∧ description r = body_description b
    ∧ creator r = userId ∧ members r = [mkMember userId now admin]
    ∧ maxMembers r = default (Qc_of_Z 50) (body_maxMembers b)
    ∧ isPrivate r = default false (body_isPrivate b)
    ∧ lastActivity r = now
    ∧ (∀ u, users s !! userId = Some u →
            pushUserRoom userId id (users s) !! userId
            = Some (mkUser (userRooms u ++ [id]))).
Proof.
  intros Hv Hn Hc Hns Hlen Hfree.
  eexists _, _. split; [by apply postCreate_ok|].
  split; [apply not_elem_of_dom, is_fresh|].
  cbn [name code description creator members maxMembers isPrivate
       lastActivity newRoom].
  rewrite toUpperCase_idem.
  destruct (newRoom_valid now userId b n c Hv Hn Hc Hns Hlen) as [_ ->].
  repeat split; try done.
  intros u Hu. unfold pushUserRoom. by rewrite lookup_alter_eq, Hu.
Qed.

(** X14.  A name made of white space only passes the schema of the route,
    which counts its code units, and fails the schema of the model, which
    trims it first: with a valid body and a free code the request is answered
    500 and nothing is stored. *)
Theorem create_blank_name_fails draws now userId b s n c :
  createRoomSchema b = None → body_name b = Some n → body_code b = Some c →
  JS.hasNonSpace n = false →
  findOneByCode (toUpperCase c) s = None →
  postCreate draws now userId b s = Some (internalError, s).
Proof.
  intros Hv Hn Hc Hns Hfree. unfold postCreate.
  rewrite Hv, (createRoomSchema_code_truthy b Hv), Hc, Hfree, Hn.
  assert (JS.trim n = []) as Ht.
  { destruct (decide (JS.trim n = [])) as [|Hne]; [done|].
    apply trim_nonempty in Hne. congruence. }
  unfold roomValid, newRoom. cbn [name]. by rewrite Ht.
Qed.

End CreateJoin.

Section CreateExamples.
Import RoomRoutes.

Lemma create_room_succeeds_witness :
  ∃ id r,
    postCreate [] 5000 Sample.carol Demo.devs Sample.store
    = Some (mkResponse 201 (MsgRoom "Salle créée avec succès" id r),
            mkStore (<[id := r]> (rooms Sample.store)) (messages Sample.store)
                    (pushUserRoom Sample.carol id (users Sample.store)))
    ∧ name r = utf16 "Dev" ∧ code r = utf16 "DEVS"
    ∧ maxMembers r = Qc_of_Z 50.
Proof.
  destruct (create_room_succeeds [] 5000 Sample.carol Demo.devs Sample.store
              (utf16 " Dev ") (utf16 "devs"))
    as (id & r & Hout & _ & Hname & Hcode & _ & _ & _ & Hmax & _).
  - reflexivity.
  - reflexivity.
  - reflexivity.
  - reflexivity.
  - vm_compute. split; discriminate.
  - vm_compute. reflexivity.
  - exists id, r. rewrite Hname, Hcode, Hmax. by repeat split.
Defined.

(** A name of no-break and ideographic spaces is blank too. *)
Lemma create_blank_name_fails_witness :
  postCreate [] 5000 Sample.carol Demo.blank Sample.store
  = Some (internalError, Sample.store)
  ∧ postCreate [] 5000 Sample.carol
      (mkCreateBody (Some [160; 12288]%N) (Some (utf16 "devs")) None None None)
      Sample.store
    = Some (internalError, Sample.store).
Proof.
  split.
  - apply (create_blank_name_fails [] 5000 Sample.carol Demo.blank
             Sample.store (utf16 "   ") (utf16 "devs")).
    + reflexivity.
    + reflexivity.
    + reflexivity.
    + reflexivity.
    + vm_compute. reflexivity.
  - apply (create_blank_name_fails [] 5000 Sample.carol _
             Sample.store [160; 12288]%N (utf16 "devs")).
    + reflexivity.
    + reflexivity.
    + reflexivity.
    + reflexivity.
    + vm_compute. reflexivity.
Defined.

End CreateExamples.

(** ** Joining, leaving and listing one's rooms *)

Section Membership.
Context `{platform : !Platform}.
Import RoomRoutes MessageRoutes.

Lemma postJoin_ok now userId c s id r :
  joinRoomSchema (Some c) = None →
  findOneByCode (toUpperCase c) s = Some (id, r) →
  membersKnown s r → roomValid r = true →
  isMember r userId = false →
  (Qc_of_Z (Z.of_nat (length (members r))) < maxMembers r)%Qc →
  postJoin now userId (Some c) s
  = (json (MsgRoom "Vous avez rejoint la salle avec succès" id
             (preSave now
                (setMembers r (members r ++ [mkMember userId now member])))),
     mkStore (<[id := preSave now
                         (setMembers r (members r ++ [mkMember userId now member]))]>
                (rooms s))
             (messages s) (pushUserRoom userId id (users s))).
Proof.
  intros Hv Hf Hk Hrv Hm Hlt.
  rewrite (postJoin_found _ _ _ _ _ _ Hv Hf Hk Hm), Hrv.
  rewrite bool_decide_eq_false_2; [done|]. by apply Qclt_not_le.
Qed.

Lemma isMember_joined now userId r :
  isMember (preSave now
              (setMembers r (members r ++ [mkMember userId now member])))
    userId = true.
Proof.
  erewrite isMember_app by done.
  by rewrite bool_decide_eq_true_2, orb_true_r.
Qed.

Lemma pushUserRoom_is_Some userId id us v :
  is_Some (pushUserRoom userId id us !! v) ↔ is_Some (us !! v).
Proof.
  unfold pushUserRoom. rewrite lookup_alter.
  case_decide; [subst|done]. by rewrite fmap_is_Some.
Qed.

Lemma pullUserRoom_is_Some userId id us v :
  is_Some (pullUserRoom userId id us !! v) ↔ is_Some (us !! v).
Proof.
  unfold pullUserRoom. rewrite lookup_alter.
  case_decide; [subst|done]. by rewrite fmap_is_Some.
Qed.

(** The members of a room joined by a caller with a [User] record have
    their records. *)
Lemma membersKnown_joined now userId s r id rs ms :
  membersKnown s r → is_Some (users s !! userId) →
  membersKnown (mkStore rs ms (pushUserRoom userId id (users s)))
    (preSave now (setMembers r (members r ++ [mkMember userId now member]))).
Proof.
  intros Hk Hu m Hm. cbn [users]. apply pushUserRoom_is_Some.
  cbn [members preSave setMembers] in Hm.
  apply elem_of_app in Hm as [Hm|Hm]; [by apply Hk|].
  by apply list_elem_of_singleton in Hm as ->.
Qed.

(** X15.  A valid join request that resolves to a room with space left,
    which passes the validators of its schema and whose members have their
    [User] records, by a caller with a record who is not a member of it, is
    answered 200: the caller is appended to the member list with the role
    member, the entries before it and the rest of the room stay, the room
    id is appended to the room references of the caller, and the room can
    then be read by the caller, who got 403 before. *)
Theorem join_room_succeeds now userId c s id r :
  joinRoomSchema (Some c) = None →
  findOneByCode (toUpperCase c) s = Some (id, r) →
  membersKnown s r → is_Some (users s !! userId) → roomValid r = true →
  isMember r userId = false →
  (Qc_of_Z (Z.of_nat (length (members r))) < maxMembers r)%Qc →
  ∃ r',
    postJoin now userId (Some c) s
    = (mkResponse 200 (MsgRoom "Vous avez rejoint la salle avec succès" id r'),
       mkStore (<[id := r']> (rooms s)) (messages s)
               (pushUserRoom userId id (users s)))
    ∧ members r' = members r ++ [mkMember userId now member]
    ∧ name r' = name r ∧ code r' = code r ∧ creator r' = creator r
    ∧ maxMembers r' = maxMembers r ∧ lastActivity r' = now
    ∧ getRoom userId id s = mkResponse 403 (Msg "Accès refusé")
    ∧ getRoom userId id (postJoin now userId (Some c) s).2
      = mkResponse 200 (OneRoom id r').
Proof.
  intros Hv Hf Hk Hu Hrv Hm Hlt.
  destruct (findOneByCode_Some _ _ _ _ Hf) as [Hid _].
  eexists. split; [by apply postJoin_ok|].
  rewrite (postJoin_ok now userId c s id r Hv Hf Hk Hrv Hm Hlt).
  repeat split; try done.
  - unfold getRoom. by rewrite Hid, (somePopulated_known _ _ _ Hk), Hm.
  - unfold getRoom. cbn [snd rooms]. rewrite lookup_insert_eq.
    rewrite (somePopulated_known _ _ _
               (membersKnown_joined now userId s r id _ _ Hk Hu)).
    by rewrite isMember_joined.
Qed.

(** X16.  Joining twice: in a store with unique codes, the join request of
    X15 repeated after it succeeded is answered 409, as the caller is a
    member by then, and leaves the store as the first request left it. *)
Theorem join_twice_is_refused now now' userId c s id r :
  uniqueCodes s →
  joinRoomSchema (Some c) = None →
  findOneByCode (toUpperCase c) s = Some (id, r) →
  membersKnown s r → is_Some (users s !! userId) → roomValid r = true →
  isMember r userId = false →
  (Qc_of_Z (Z.of_nat (length (members r))) < maxMembers r)%Qc →
  let s1 := (postJoin now userId (Some c) s).2 in
  postJoin now' userId (Some c) s1
  = (mkResponse 409 (Msg "Vous êtes déjà membre de cette salle"), s1).
Proof.
  intros Hu Hv Hf Hk Hrec Hrv Hm Hlt s1. subst s1.
  destruct (findOneByCode_Some _ _ _ _ Hf) as [Hid Hc].
  rewrite (postJoin_ok now userId c s id r Hv Hf Hk Hrv Hm Hlt). cbn [snd].
  set (r' := preSave now _).
  set (s1 := mkStore _ _ _).
  assert (Hf1 : findOneByCode (toUpperCase c) s1 = Some (id, r')).
  { apply findOneByCode_unique.
    - eapply (Effect_uniqueCodes now userId s 200); [|done].
      apply (Joined now userId s id r); try done.
    - apply lookup_insert_eq.
    - done. }
  unfold postJoin. rewrite Hv, Hf1.
  rewrite (somePopulated_known s1 r' userId
             (membersKnown_joined now userId s r id _ _ Hk Hrec)).
  unfold r'. by rewrite (isMember_joined now userId r).
Qed.

(** X17.  The code of a join request is read without regard to case: when
    a code and its upper case both pass the schema of the route, as they do
    when the upper case is no longer than 8 code units, the request with the
    code and the request with the code in upper case are answered alike and
    leave the same store. *)
Theorem join_ignores_case now userId c s :
  joinRoomSchema (Some c) = None →
  joinRoomSchema (Some (toUpperCase c)) = None →
  postJoin now userId (Some (toUpperCase c)) s
  = postJoin now userId (Some c) s.
Proof.
  intros Hv Hv'. unfold postJoin. by rewrite Hv, Hv', toUpperCase_idem.
Qed.

End Membership.

Section Lockout.
Import RoomRoutes MessageRoutes.

(** X18.  Leaving locks the caller out: after a leave request on a room of
    the store, which passes the validators of its schema and whose members
    have their [User] records, the caller is answered 403 when reading the
    room and when listing its messages, whatever the page asked for. *)
Theorem leave_locks_out now userId roomId s r :
  rooms s !! roomId = Some r → roomValid r = true → membersKnown s r →
  let s1 := (postLeave now userId roomId s).2 in
  getRoom userId roomId s1 = mkResponse 403 (Msg "Accès refusé")
  ∧ ∀ q, getRoomMessages userId roomId q s1
         = mkResponse 403 (Msg "Accès refusé").
Proof.
  intros Hr Hrv Hk s1. subst s1.
  rewrite (postLeave_valid _ _ _ _ _ Hr Hrv). cbn [snd].
  set (r' := preSave now _).
  set (s1 := mkStore _ _ _).
  assert (Hnot : isMember r' userId = false).
  { apply isMember_false. simpl. intros m Hin.
    by apply elem_of_others in Hin as [_ ?]. }
  assert (Hk' : membersKnown s1 r').
  { intros m Hin. cbn [users s1]. apply pullUserRoom_is_Some.
    apply Hk. cbn [members r' preSave setMembers] in Hin.
    by apply elem_of_others in Hin as [? _]. }
  split.
  - unfold getRoom. cbn [rooms s1]. rewrite lookup_insert_eq.
    by rewrite (somePopulated_known _ _ _ Hk'), Hnot.
  - intros q. unfold getRoomMessages. cbn [rooms s1].
    by rewrite lookup_insert_eq, Hnot.
Qed.

Lemma leave_locks_out_witness :
  getRoom Sample.bob Sample.roomId
    (postLeave 5000 Sample.bob Sample.roomId Sample.store).2
  = mkResponse 403 (Msg "Accès refusé").
Proof.
  destruct (leave_locks_out 5000 Sample.bob Sample.roomId Sample.store
              Sample.team) as [Hget _].
  - reflexivity.
  - vm_compute. reflexivity.
  - known_by_cases.
  - exact Hget.
Defined.

(** X19.  In a store whose room references are sound, the rooms listed for
    a caller with a user record are the rooms of the references, in order,
    each a room of the store that has the caller among its members; a caller
    without a user record is answered 404. *)
Theorem my_rooms_are_the_callers userId s :
  userRoomsSound s →
  match users s !! userId with
  | None => getMyRooms userId s = mkResponse 404 (Msg "Utilisateur non trouvé")
  | Some u =>
      ∃ rs, getMyRooms userId s = mkResponse 200 (Rooms rs)
            ∧ rs.*1 = userRooms u
            ∧ ∀ id r, (id, r) ∈ rs →
                      rooms s !! id = Some r ∧ isMember r userId = true
  end.
Proof.
  intros Hinv. unfold getMyRooms.
  destruct (users s !! userId) as [u|] eqn:Hu; [|done].
  eexists. split; [done|]. split.
  - assert (Hall : ∀ rid, rid ∈ userRooms u → is_Some (rooms s !! rid)).
    { intros rid Hrid. destruct (Hinv _ _ _ Hu Hrid) as (r & -> & _). eauto. }
    clear Hu. induction (userRooms u) as [|rid l IH]; simpl; [done|].
    destruct (Hall rid) as [r Hr]; [left|]. rewrite Hr. simpl.
    f_equal. apply IH. intros rid' Hin. apply Hall. by right.
  - intros id r Hin.
    apply list_elem_of_omap in Hin as (rid & Hrid & Hf).
    destruct (rooms s !! rid) as [r0|] eqn:Hr0; simpl in Hf; simplify_eq.
    split; [done|].
    destruct (Hinv _ _ _ Hu Hrid) as (r1 & Hr1 & Hm). by simplify_eq.
Qed.

Lemma my_rooms_are_the_callers_witness :
  ∃ rs, getMyRooms Sample.bob Sample.store = mkResponse 200 (Rooms rs)
        ∧ rs.*1 = [Sample.roomId]
        ∧ ∀ id r, (id, r) ∈ rs → isMember r Sample.bob = true.
Proof.
  pose proof (my_rooms_are_the_callers Sample.bob Sample.store
                sample_userRoomsSound) as H.
  change (users Sample.store !! Sample.bob)
    with (Some (mkUser [Sample.roomId])) in H.
  destruct H as (rs & Hrs & Hids & Hall).
  exists rs. split; [exact Hrs|]. split; [exact Hids|].
  intros id r Hin. by apply (Hall id r).
Defined.

(** X20.  The code the generating loop settles on is the code made from one
    of the draws, is carried by no room of the store, has at most six
    characters and is in upper case. *)
Theorem uniqueCode_is_free draws s c :
  uniqueCode draws s = Some c →
  findOneByCode c s = None
  ∧ (∃ d, d ∈ draws ∧ c = utf16 (generateRoomCode d))
  ∧ (length c ≤ 6)%nat
  ∧ (∃ t, c = utf16 t ∧ JS.upperCase36 t = t).
Proof.
  induction draws as [|d draws IH]; simpl; [done|].
  destruct (findOneByCode (utf16 (generateRoomCode d)) s) eqn:Hf.
  - intros H. destruct (IH H) as (? & (d' & ? & ?) & ? & ?).
    repeat split; try done. exists d'. split; [by right|done].
  - intros [= <-]. repeat split; try done.
    + exists d. split; [by left|done].
    + rewrite utf16_length. apply generateRoomCode_length.
    + exists (generateRoomCode d). split; [done|].
      unfold generateRoomCode. apply upperCase36_idem.
Qed.

Lemma uniqueCode_is_free_witness :
  uniqueCode ["0.team"; "0.k3x9a2zzz"] Sample.store = Some (utf16 "K3X9A2")
  ∧ findOneByCode (utf16 "K3X9A2") Sample.store = None.
Proof.
  destruct (uniqueCode_is_free ["0.team"; "0.k3x9a2zzz"] Sample.store
              (utf16 "K3X9A2"))
    as [Hfree _].
  - vm_compute. reflexivity.
  - split; [vm_compute; reflexivity | exact Hfree].
Defined.

End Lockout.

Section MembershipExamples.
Import RoomRoutes.

Lemma join_room_succeeds_witness :
  ∃ r', getRoom Sample.carol Sample.roomId
          (postJoin 5000 Sample.carol (Some (utf16 "Team")) Demo.roomy).2
        = mkResponse 200 (OneRoom Sample.roomId r')
        ∧ user <$> members r' = [Sample.alice; Sample.bob; Sample.carol].
Proof.
  destruct (join_room_succeeds 5000 Sample.carol (utf16 "Team") Demo.roomy
              Sample.roomId (Demo.setMembersCapacity Sample.team (Qc_of_Z 3)))
    as (r' & _ & Hm & _ & _ & _ & _ & _ & _ & Hget).
  - reflexivity.
  - vm_compute. reflexivity.
  - known_by_cases.
  - vm_compute. eexists. reflexivity.
  - vm_compute. reflexivity.
  - reflexivity.
  - vm_compute. reflexivity.
  - exists r'. split; [exact Hget|]. rewrite Hm. reflexivity.
Defined.

Lemma join_twice_is_refused_witness :
  status (postJoin 6000 Sample.carol (Some (utf16 "Team"))
            (postJoin 5000 Sample.carol (Some (utf16 "Team")) Demo.roomy).2).1
  = 409.
Proof.
  rewrite (join_twice_is_refused 5000 6000 Sample.carol (utf16 "Team")
             Demo.roomy Sample.roomId
             (Demo.setMembersCapacity Sample.team (Qc_of_Z 3))).
  - reflexivity.
  - intros i j r1 r2 Hi Hj _. simpl in Hi, Hj.
    apply lookup_singleton_Some in Hi as [<- _].
    by apply lookup_singleton_Some in Hj as [<- _].
  - reflexivity.
  - vm_compute. reflexivity.
  - known_by_cases.
  - vm_compute. eexists. reflexivity.
  - vm_compute. reflexivity.
  - reflexivity.
  - vm_compute. reflexivity.
Defined.

Lemma join_ignores_case_witness :
  toUpperCase (utf16 "Team") = utf16 "TEAM"
  ∧ postJoin 5000 Sample.carol (Some (toUpperCase (utf16 "Team"))) Demo.roomy
    = postJoin 5000 Sample.carol (Some (utf16 "Team")) Demo.roomy.
Proof.
  split; [vm_compute; reflexivity|].
  apply (join_ignores_case 5000 Sample.carol (utf16 "Team") Demo.roomy);
    reflexivity.
Defined.

(** The upper case of a code that passes the schema need not pass it: five
    sharp s are a valid code, and their upper case, ten letters, is not. *)
Example join_sharp_s :
  joinRoomSchema (Some [223; 223; 223; 223; 223]%N) = None
  ∧ joinRoomSchema (Some (toUpperCase [223; 223; 223; 223; 223]%N))
    = Some (mkJoiError "code" string_max).
Proof. split; vm_compute; reflexivity. Qed.

End MembershipExamples.

(** ** A room created, then joined *)

Section Scenario.
Context `{platform : !Platform}.
Import RoomRoutes MessageRoutes.

Lemma findOneByCode_added k s id r ms us :
  findOneByCode k s = None → code r = k →
  findOneByCode k (mkStore (<[id := r]> (rooms s)) ms us) = Some (id, r).
Proof.
  intros Hfree Hc.
  destruct (findOneByCode_hit k (mkStore (<[id := r]> (rooms s)) ms us) id r)
    as [[j r'] Hf]; [apply lookup_insert_eq | done |].
  rewrite Hf. destruct (findOneByCode_Some _ _ _ _ Hf) as [Hj Hc'].
  simpl in Hj. rewrite lookup_insert in Hj.
  case_decide; simplify_eq; [done|].
  by destruct (findOneByCode_None _ _ _ _ Hfree Hj).
Qed.

(** X21.  A room created with a code can be joined with that code in any
    case: after a create request of a caller with a [User] record that
    passes the schema with a name that is not blank and a free code of 4 to
    8 code units in upper case, answered 201, a join request of another
    user with a valid code equal to it, case ignored, is answered 200 for
    the room created, which then has two members, the creator as admin and
    the other user as member. *)
Theorem create_then_join draws now now' creatorId userId b n c c' s :
  createRoomSchema b = None → body_name b = Some n → body_code b = Some c →
  JS.hasNonSpace n = true →
  4 ≤ JS.len (toUpperCase c) ≤ 8 →
  findOneByCode (toUpperCase c) s = None →
  is_Some (users s !! creatorId) →
  userId ≠ creatorId →
  joinRoomSchema (Some c') = None → toUpperCase c' = toUpperCase c →
  ∃ id r1 s1 r2 s2,
    postCreate draws now creatorId b s
    = Some (mkResponse 201 (MsgRoom "Salle créée avec succès" id r1), s1)
    ∧ postJoin now' userId (Some c') s1
      = (mkResponse 200 (MsgRoom "Vous avez rejoint la salle avec succès" id r2),
         s2)
    ∧ rooms s2 !! id = Some r2
    ∧ members r2 = [mkMember creatorId now admin; mkMember userId now' member]
    ∧ code r2 = toUpperCase c.
Proof.
  intros Hv Hn Hc Hns Hlen Hfree Hrec Hne Hjoin Hcc.
  eexists _, _, _. eexists _, _.
  split; [by apply postCreate_ok|].
  set (r1 := newRoom now creatorId n (toUpperCase c) b).
  destruct (newRoom_valid now creatorId b n c Hv Hn Hc Hns Hlen)
    as [Hvalid _].
  fold r1 in Hvalid.
  destruct (roomValid_bounds _ Hvalid) as (_ & _ & _ & Hmax & _).
  assert (Hcode : code r1 = toUpperCase c')
    by (cbn [code r1 newRoom]; by rewrite toUpperCase_idem).
  rewrite (postJoin_ok now' userId c' _ (fresh (dom (rooms s))) r1);
    try done.
  - split; [done|]. cbn [rooms]. rewrite lookup_insert_eq.
    repeat split; try done.
    cbn [code preSave setMembers r1 newRoom]. by rewrite toUpperCase_idem.
  - apply findOneByCode_added; [by rewrite Hcc|done].
  - intros m Hm. cbn [users]. apply pushUserRoom_is_Some.
    cbn [members r1 newRoom] in Hm.
    by apply list_elem_of_singleton in Hm as ->.
  - unfold isMember. cbn [members r1 newRoom existsb user].
    by rewrite bool_decide_eq_false_2.
  - cbn [members r1 newRoom length].
    eapply Qclt_le_trans; [|exact Hmax].
    apply (proj1 (Z2Qc_inj_lt _ _)). lia.
Qed.

End Scenario.

Section ScenarioExamples.
Import RoomRoutes.

Lemma create_then_join_witness :
  ∃ id r1 s1 r2 s2,
    postCreate [] 5000 Sample.carol Demo.devs Sample.store
    = Some (mkResponse 201 (MsgRoom "Salle créée avec succès" id r1), s1)
    ∧ postJoin 6000 Sample.bob (Some (utf16 "Devs")) s1
      = (mkResponse 200 (MsgRoom "Vous avez rejoint la salle avec succès" id r2),
         s2)
    ∧ rooms s2 !! id = Some r2
    ∧ members r2 = [mkMember Sample.carol 5000 admin;
                    mkMember Sample.bob 6000 member]
    ∧ code r2 = toUpperCase (utf16 "devs").
Proof.
  apply (create_then_join [] 5000 6000 Sample.carol Sample.bob Demo.devs
           (utf16 " Dev ") (utf16 "devs") (utf16 "Devs") Sample.store).
  - reflexivity.
  - reflexivity.
  - reflexivity.
  - reflexivity.
  - vm_compute. split; discriminate.
  - vm_compute. reflexivity.
  - vm_compute. eexists. reflexivity.
  - discriminate.
  - reflexivity.
  - vm_compute. reflexivity.
Defined.

End ScenarioExamples.

(** ** Sending, editing and deleting *)

Section Writing.
Context `{platform : !Platform}.
Import RoomRoutes MessageRoutes.

(** X22.  For a member of the room and a body that passes the schema, with
    a [roomId] that is the id of the room, a [replyTo] that is absent or
    an id, and a room that passes the validators of its schema, a send
    succeeds exactly when the content is not blank: content with a code
    unit that is not white space is answered 201, and content of white space
    only, which the schema of the route lets through, fails the schema of
    the model and is answered 500 with nothing stored. *)
Theorem send_needs_content now userId b s roomId r c :
  sendMessageSchema b = None →
  body_roomId b ≫= castObjectId = Some roomId →
  body_content b = Some c →
  match body_replyTo b with
  | None => True
  | Some raw => is_Some (castObjectId raw)
  end →
  rooms s !! roomId = Some r → roomValid r = true →
  isMember r userId = true →
  if JS.hasNonSpace c
  then status (postSend now userId b s).1 = 201
  else postSend now userId b s = (internalError, s).
Proof.
  intros Hv Hrid Hc Hreply Hr Hrv Hm. unfold postSend.
  destruct (sendMessageSchema_type b Hv) as (ty & Hty & _).
  rewrite Hv, Hrid, Hr, Hm, Hc, Hty, (sendMessageSchema_replyTo b Hv).
  cbn [negb].
  assert (Hcast : ∃ reply,
             match body_replyTo b with
             | Some raw => Some <$> castObjectId raw
             | None => Some None
             end = Some reply).
  { destruct (body_replyTo b) as [raw|]; [|by eexists].
    destruct Hreply as [i ->]. by eexists. }
  destruct Hcast as [reply ->].
  unfold sendMessageSchema in Hv. rewrite !first_cons_None in Hv.
  destruct Hv as (Hcv & _).
  rewrite Hc in Hcv. apply str_bounds_ok in Hcv.
  pose proof (trim_length c).
  cbn [content]. rewrite roomValid_preSave, roomValid_touch, Hrv.
  unfold contentValid.
  destruct (JS.hasNonSpace c) eqn:Hns.
  - apply trim_nonempty in Hns. rewrite (bool_decide_eq_false_2 _ Hns).
    cbn [negb andb].
    by assert ((JS.len (JS.trim c) <=? 1000) = true) as -> by lia.
  - assert (JS.trim c = []) as ->; [|done].
    destruct (decide (JS.trim c = [])) as [|Hne]; [done|].
    apply trim_nonempty in Hne. congruence.
Qed.

End Writing.

Section Editing.
Import MessageRoutes.

Lemma send_needs_content_witness :
  status (postSend 5000 Sample.alice Demo.hello Sample.store).1 = 201
  ∧ postSend 5000 Sample.alice Demo.spaces Sample.store
    = (internalError, Sample.store).
Proof.
  split.
  - apply (send_needs_content 5000 Sample.alice Demo.hello Sample.store
             Sample.roomId Sample.team (utf16 "hello"));
      first [exact I | vm_compute; reflexivity].
  - apply (send_needs_content 5000 Sample.alice Demo.spaces Sample.store
             Sample.roomId Sample.team (utf16 "  "));
      first [exact I | vm_compute; reflexivity].
Defined.

(** X23.  An edit does not see the white space around the content: a
    request with some content and the request with that content trimmed are
    answered alike and leave the same store. *)
Theorem edit_ignores_outer_space now userId messageId c s :
  putMessage now userId messageId (Some (JS.trim c)) s
  = putMessage now userId messageId (Some c) s.
Proof.
  unfold putMessage. rewrite !trim_idem, !len_zero.
  destruct (decide (JS.trim c = [])) as [Ht|Ht].
  - rewrite Ht. simpl. by rewrite orb_true_r.
  - rewrite (bool_decide_eq_false_2 _ Ht), !orb_false_r.
    assert (JS.falsy (Some (JS.trim c)) = false) as ->
      by by destruct (JS.trim c).
    assert (JS.falsy (Some c) = false) as -> by by destruct c.
    done.
Qed.

End Editing.

(** ** What a listing holds *)

Section Pages.
Import RoomRoutes MessageRoutes.

Lemma slice_sublist {A} (l : list A) n k : take n (drop k l) `sublist_of` l.
Proof. etrans; [apply sublist_take | apply sublist_drop]. Qed.

(** A page is made of messages of the room, each at most once. *)
Lemma findPage_sound roomId limit skip s msgs :
  findPage roomId limit skip s = Some msgs →
  (∀ i m, (i, m) ∈ msgs → messages s !! i = Some m ∧ room m = roomId)
  ∧ NoDup msgs.*1
  ∧ Z.of_nat (length msgs) ≤ Z.abs limit.
Proof.
  unfold findPage. destruct (skip <? 0); [done|]. intros [= <-].
  set (sorted := merge_sort newerFirst (roomMessages roomId s)).
  assert (Hperm : sorted ≡ₚ roomMessages roomId s)
    by apply merge_sort_Permutation.
  split; [|split].
  - intros i m Hin. apply roomMessages_elem. rewrite <- Hperm.
    eapply elem_of_sublist; [done|apply slice_sublist].
  - eapply sublist_NoDup; [|apply fmap_sublist, slice_sublist].
    rewrite Hperm. apply roomMessages_NoDup.
  - rewrite length_take. lia.
Qed.

Lemma getRoomMessages_200 userId roomId q s msgs replies p :
  getRoomMessages userId roomId q s = mkResponse 200 (Page msgs replies p) →
  ∃ r found,
    rooms s !! roomId = Some r ∧ isMember r userId = true
    ∧ findPage roomId (JS.orNum (query_limit q) 50)
        ((JS.orNum (query_page q) 1 - 1) * JS.orNum (query_limit q) 50) s
      = Some found
    ∧ msgs = reverse found
    ∧ totalMessages p = countDocuments roomId s.
Proof.
  unfold getRoomMessages.
  destruct (rooms s !! roomId) as [r|]; [|done].
  destruct (isMember r userId) eqn:Hm; [|done]. simpl.
  destruct (findPage _ _ _ s) as [found|]; [|done].
  intros [= <- <- <-]. by exists r, found.
Qed.

(** X24.  A listing answered 200 is given to a member of the room and
    holds messages of that room only, each a message of the store and each
    at most once, no more of them than the limit; the total it reports is the
    number of messages of the room. *)
Theorem listing_holds_room_messages userId roomId q s msgs replies p :
  getRoomMessages userId roomId q s = mkResponse 200 (Page msgs replies p) →
  (∃ r, rooms s !! roomId = Some r ∧ isMember r userId = true)
  ∧ (∀ i m, (i, m) ∈ msgs → messages s !! i = Some m ∧ room m = roomId)
  ∧ NoDup msgs.*1
  ∧ Z.of_nat (length msgs) ≤ Z.abs (JS.orNum (query_limit q) 50)
  ∧ totalMessages p = Z.of_nat (length (roomMessages roomId s)).
Proof.
  intros (r & found & Hr & Hm & Hf & -> & Ht)%getRoomMessages_200.
  destruct (findPage_sound _ _ _ _ _ Hf) as (Hin & Hnd & Hlen).
  split; [eauto|]. split; [|split; [|split]].
  - intros i m Hi. apply Hin. by apply elem_of_reverse.
  - by rewrite fmap_reverse, reverse_Permutation.
  - by rewrite length_reverse.
  - done.
Qed.

Lemma listing_holds_room_messages_witness :
  messages Sample.busy !! Sample.noteId "14"
  = Some (Sample.note "14" 40 (Some (Sample.noteId "11"))).2
  ∧ room (Sample.note "14" 40 (Some (Sample.noteId "11"))).2 = Sample.roomId
  ∧ NoDup [Sample.note "14" 40 (Some (Sample.noteId "11"));
           Sample.note "15" 50 None].*1.
Proof.
  destruct (listing_holds_room_messages Sample.alice Sample.roomId
              (mkQuery (Some 1) (Some 2)) Sample.busy
              [Sample.note "14" 40 (Some (Sample.noteId "11"));
               Sample.note "15" 50 None]
              [Some (Sample.note "11" 10 None).2; None]
              (mkPagination 1 3 5 true)) as (_ & Hin & Hnd & _).
  - vm_compute. reflexivity.
  - destruct (Hin (Sample.noteId "14")
                (Sample.note "14" 40 (Some (Sample.noteId "11"))).2)
      as [H1 H2]; [left|]. by split.
Defined.



End Pages.

(** ** Every message is on a page *)

Section Reach.
Import RoomRoutes MessageRoutes.

Lemma orNum_pos n d : 1 ≤ n → JS.orNum (Some n) d = n.
Proof. intros Hn. simpl. destruct (n =? 0) eqn:E; lia. Qed.

(** The element at index [j] of a list is in the slice of length [L] that
    starts at the multiple of [L] below [j]. *)
Lemma slice_holds {A} (l : list A) (L j : nat) x :
  (0 < L)%nat → l !! j = Some x → x ∈ take L (drop (j `div` L * L) l).
Proof.
  intros HL Hj.
  pose proof (Nat.div_mod_eq j L) as Hdm.
  pose proof (Nat.mod_upper_bound j L ltac:(lia)) as Hmod.
  apply (list_elem_of_lookup_2 _ (j `mod` L)).
  rewrite lookup_take_lt by lia. rewrite lookup_drop.
  replace (j `div` L * L + j `mod` L)%nat with j by lia. done.
Qed.

(** X26.  Paging loses no message: for a member of the room and a limit of
    at least one, every message of the room is returned on one of the pages
    1 to [totalPages]. *)
Theorem every_message_is_on_a_page userId roomId r limit s i m :
  rooms s !! roomId = Some r → isMember r userId = true →
  1 ≤ limit →
  messages s !! i = Some m → room m = roomId →
  ∃ page msgs replies p,
    1 ≤ page ≤ JS.ceilDiv (countDocuments roomId s) limit
    ∧ getRoomMessages userId roomId (mkQuery (Some page) (Some limit)) s
      = mkResponse 200 (Page msgs replies p)
    ∧ (i, m) ∈ msgs.
Proof.
  intros Hr Hm Hlimit Hi Hroom.
  set (sorted := merge_sort newerFirst (roomMessages roomId s)).
  assert (Hperm : sorted ≡ₚ roomMessages roomId s)
    by apply merge_sort_Permutation.
  assert (Hin : (i, m) ∈ sorted)
    by (rewrite Hperm; by apply roomMessages_elem).
  apply list_elem_of_lookup_1 in Hin as [j Hj].
  pose proof (lookup_lt_Some _ _ _ Hj) as Hlt.
  rewrite (Permutation_length Hperm) in Hlt.
  set (L := Z.to_nat limit).
  assert (HL : (0 < L)%nat) by (subst L; lia).
  set (page := Z.of_nat (j `div` L) + 1).
  assert (Hpage : 1 ≤ page) by (subst page; lia).
  pose proof (getRoomMessages_member userId roomId r
                (mkQuery (Some page) (Some limit)) s Hr Hm) as Hget.
  cbv zeta in Hget. simpl query_page in Hget. simpl query_limit in Hget.
  rewrite !orNum_pos in Hget by lia.
  destruct Hget as [Hget _]; [lia..|].
  eexists page, _, _, _. split; [|split; [exact Hget|]].
  - pose proof (ceilDiv_spec (countDocuments roomId s) limit ltac:(lia)) as Hc.
    unfold countDocuments in *.
    pose proof (Nat.div_mod_eq j L) as Hdm.
    assert (Z.of_nat L = limit) by (subst L; lia).
    split; [done|]. subst page. nia.
  - apply elem_of_reverse.
    replace (Z.to_nat ((page - 1) * limit)) with (j `div` L * L)%nat
      by (subst page L; nia).
    by apply slice_holds.
Qed.

Lemma every_message_is_on_a_page_witness :
  ∃ page msgs replies p,
    1 ≤ page ≤ 3
    ∧ getRoomMessages Sample.alice Sample.roomId
        (mkQuery (Some page) (Some 2)) Sample.busy
      = mkResponse 200 (Page msgs replies p)
    ∧ Sample.note "11" 10 None ∈ msgs.
Proof.
  destruct (every_message_is_on_a_page Sample.alice Sample.roomId Sample.team
              2 Sample.busy (Sample.noteId "11") (Sample.note "11" 10 None).2)
    as (page & msgs & replies & p & Hpage & Hget & Hin).
  - reflexivity.
  - reflexivity.
  - lia.
  - vm_compute. reflexivity.
  - reflexivity.
  - exists page, msgs, replies, p. split; [|by split].
    assert (JS.ceilDiv (countDocuments Sample.roomId Sample.busy) 2 = 3) as E
      by (vm_compute; reflexivity).
    by rewrite E in Hpage.
Defined.

End Reach.

(** ** Receipts and the end of the pages *)

Section Receipts.
Context `{platform : !Platform}.
Import RoomRoutes MessageRoutes.

Lemma oneReceipt_insert s rs us id m :
  (∀ u, (receiptsOf u m ≤ 1)%nat) →
  oneReceiptPerUser s →
  oneReceiptPerUser (mkStore rs (<[id := m]> (messages s)) us).
Proof.
  intros Hm Hinv i m' u. simpl. rewrite lookup_insert.
  case_decide; intros; simplify_eq; [apply Hm | by eapply Hinv].
Qed.

Lemma oneReceipt_delete s rs us id :
  oneReceiptPerUser s →
  oneReceiptPerUser (mkStore rs (delete id (messages s)) us).
Proof.
  intros Hinv i m u. simpl. rewrite lookup_delete_Some.
  intros [_ ?]. by eapply Hinv.
Qed.

(** X27.  No request gives a message a second read receipt of a user: if
    every message of the store holds at most one receipt per user, so does
    every message afterwards. *)
Theorem receipts_stay_single now userId req s resp s' :
  handle now userId req s = Some (resp, s') →
  oneReceiptPerUser s → oneReceiptPerUser s'.
Proof.
  intros H Hinv. apply handle_effect in H.
  effect_cases H; try done.
  - apply oneReceipt_insert; [|done]. intros u.
    unfold receiptsOf. rewrite Hread. simpl. lia.
  - apply oneReceipt_insert; [|done]. intros u.
    unfold receiptsOf. rewrite Hread. simpl. lia.
  - apply oneReceipt_insert; [|done]. intros u.
    unfold receiptsOf at 1. simpl readBy. rewrite receiptsOf_push.
    pose proof (Hinv _ _ u Hmsg).
    case_decide as Hu; [simpl in Hu; subst u|lia].
    destruct (receiptsOf userId m) eqn:E; [lia|].
    assert (alreadyRead userId m = true) by (apply alreadyRead_receipts; lia).
    congruence.
  - apply oneReceipt_insert; [|done]. intros u. exact (Hinv _ _ u Hmsg).
  - by apply oneReceipt_delete.
Qed.

End Receipts.

Section Last.
Import RoomRoutes MessageRoutes.

Lemma receipts_stay_single_witness :
  oneReceiptPerUser
    (postRead 6000 Sample.bob Sample.messageId
       (postRead 5000 Sample.bob Sample.messageId Sample.store).2).2.
Proof.
  apply (receipts_stay_single 6000 Sample.bob (MarkRead Sample.messageId)
           (postRead 5000 Sample.bob Sample.messageId Sample.store).2
           (postRead 6000 Sample.bob Sample.messageId
              (postRead 5000 Sample.bob Sample.messageId Sample.store).2).1).
  - by apply handle_pair.
  - apply (receipts_stay_single 5000 Sample.bob (MarkRead Sample.messageId)
             Sample.store
             (postRead 5000 Sample.bob Sample.messageId Sample.store).1).
    + by apply handle_pair.
    + apply sample_oneReceiptPerUser.
Defined.

(** X28.  A page past the last one is empty: for a member of the room, a
    page and a limit of at least one, when the offset [(page - 1) * limit]
    reaches the number of messages of the room the answer is 200 with no
    message and [hasMore] false. *)
Theorem page_past_the_end_is_empty userId roomId r q s :
  rooms s !! roomId = Some r → isMember r userId = true →
  let page := JS.orNum (query_page q) 1 in
  let limit := JS.orNum (query_limit q) 50 in
  1 ≤ page → 1 ≤ limit →
  countDocuments roomId s ≤ (page - 1) * limit →
  getRoomMessages userId roomId q s
  = mkResponse 200
      (Page [] []
         (mkPagination page (JS.ceilDiv (countDocuments roomId s) limit)
            (countDocuments roomId s) false)).
Proof.
  intros Hr Hm page limit Hpage Hlimit Hpast.
  destruct (getRoomMessages_member userId roomId r q s Hr Hm Hpage Hlimit)
    as [Hget Hlen].
  fold page limit in Hget, Hlen.
  rewrite Hget.
  assert (Hnil : reverse (take (Z.to_nat limit)
                   (drop (Z.to_nat ((page - 1) * limit))
                      (merge_sort newerFirst (roomMessages roomId s)))) = []).
  { apply length_zero_iff_nil. lia. }
  rewrite Hnil. cbn [length fmap list_fmap]. change (Z.of_nat 0) with 0.
  by rewrite Z.add_0_r, (proj2 (Z.ltb_ge _ _) Hpast).
Qed.

Lemma page_past_the_end_is_empty_witness :
  getRoomMessages Sample.alice Sample.roomId (mkQuery (Some 4) (Some 2))
    Sample.busy
  = mkResponse 200 (Page [] [] (mkPagination 4 3 5 false)).
Proof.
  rewrite (page_past_the_end_is_empty Sample.alice Sample.roomId Sample.team
             (mkQuery (Some 4) (Some 2)) Sample.busy).
  - vm_compute. reflexivity.
  - reflexivity.
  - reflexivity.
  - simpl. lia.
  - simpl. lia.
  - vm_compute. discriminate.
Defined.

End Last.
